(** * eBPF_Practice: a shallow embedding of the BCC sample programs

    The repository holds a handful of BCC scripts.  Each script carries a
    small eBPF C program (run by the kernel on a hook) and a Python part
    (run in user space) that seeds maps and prints events.  This file
    embeds both halves of the scripts as Rocq functions and proves the
    properties of the transport, the configuration store, the tail-call
    dispatch table, the per-UID counter and the LSM probe.

    Conventions
    - C integers are [Z] with the wrap-around written out
      ([to_s32], [to_u32], [to_u64]).
    - C [char] arrays are [list byte] of the declared length.
    - BPF maps are [gmap]s; the program array is a [list] updated by index.
    - The kernel helpers ([bpf_probe_read_kernel], [bpf_get_current_comm],
      [bpf_tail_call], ...) and the BCC/ctypes calls of the Python side are
      not part of the repository; they are modelled by their documented
      behaviour, next to the place where the scripts use them. *)

From Stdlib Require Import ZArith Lia Strings.Byte DecimalString.
From stdpp Require Import base option list gmap strings.

(** ** C integer conversions *)

Definition to_u32 (z : Z) : Z := (z mod 2 ^ 32)%Z.
Definition to_u64 (z : Z) : Z := (z mod 2 ^ 64)%Z.
Definition to_s32 (z : Z) : Z := ((z + 2 ^ 31) mod 2 ^ 32 - 2 ^ 31)%Z.

(** ** Fixed-size character buffers *)

Definition zeros (n : nat) : list byte := replicate n x00.

(** [char buf[n] = "lit";] : the literal, then NUL bytes up to [n]. *)
Definition char_array (n : nat) (lit : string) : list byte :=
  take n (String.list_byte_of_string lit ++ zeros n).

(** The bytes of a buffer up to, not including, its first NUL (all of the
    buffer when it holds none). *)
Fixpoint c_str (buf : list byte) : list byte :=
  match buf with
  | [] => []
  | b :: rest => if Byte.eqb b x00 then [] else b :: c_str rest
  end.

(** ** The triggering context

    What the helpers report about the task that fired the hook:
    [bpf_get_current_pid_tgid] (tgid in the upper, pid in the lower 32
    bits), [bpf_get_current_uid_gid] (gid in the upper, uid in the lower 32
    bits) and the task's [comm]. *)

Record task := Task {
  pid_tgid : Z;
  uid_gid : Z;
  comm : list byte
}.

Definition bpf_get_current_pid_tgid (t : task) : Z := to_u64 (pid_tgid t).
Definition bpf_get_current_uid_gid (t : task) : Z := to_u64 (uid_gid t).

(** The effective UID of the task: the low half of the uid/gid pair. *)
Definition euid (t : task) : Z := to_u32 (uid_gid t).

(** ** Kernel helpers that copy into a buffer

    A buffer is an object of its declared capacity.  A helper asked to
    move [size] bytes succeeds only when [size] fits both the destination
    and the source; a request that would touch a byte outside either
    object is reported as [None]. *)

Definition bpf_probe_read_kernel
    (dst : list byte) (size : nat) (src : list byte) : option (list byte) :=
  if decide (size ≤ length dst ∧ size ≤ length src)
  then Some (take size src ++ drop size dst)
  else None.

(** The kernel keeps the task name in [char comm[TASK_COMM_LEN]], always
    NUL-terminated. *)
Definition TASK_COMM_LEN : nat := 16.

Definition task_comm (t : task) : list byte :=
  take (TASK_COMM_LEN - 1) (c_str (comm t)).

(** [bpf_get_current_comm(buf, size)] stores the task name, cut to
    [size - 1] bytes, and pads the rest of the [size] bytes with NUL. *)
Definition bpf_get_current_comm
    (dst : list byte) (size : nat) (t : task) : option (list byte) :=
  if decide (size ≤ length dst)
  then let name := take (size - 1) (task_comm t) in
       Some (name ++ zeros (size - length name) ++ drop size dst)
  else None.

(** ** The debug log

    [bpf_trace_printk(fmt, args...)] appends one line to the trace pipe;
    a line is kept as its format and the values of its arguments. *)

Inductive printk_arg :=
  | ArgInt (z : Z)
  | ArgStr (s : list byte).

Record trace_line := Printk {
  fmt : string;
  fmt_args : list printk_arg
}.

Definition bpf_trace_printk (f : string) (a : list printk_arg)
    : list trace_line :=
  [Printk f a].

(** ** The event record, [struct data_t] *)

Record data_t := Data {
  pid : Z;
  uid : Z;
  command : list byte;
  message : list byte
}.

Definition sizeof_command : nat := 16.
Definition sizeof_message : nat := 12.

(** The record whose every byte is zero. *)
Definition data_zero : data_t :=
  {| pid := 0; uid := 0;
     command := zeros sizeof_command; message := zeros sizeof_message |}.

(** [struct data_t data = {};]: the object takes the place of what the
    stack slot held, and every byte of it is set to zero. *)
Definition zero_init (slot : data_t) : data_t := data_zero.

(** *** The record as the block of bytes handed to the transport *)

Definition byte_of_Z (z : Z) : byte :=
  default x00 (Byte.of_N (Z.to_N (z mod 256))).

Definition Z_of_byte (b : byte) : Z := Z.of_N (Byte.to_N b).

(** A 32-bit integer, least significant byte first. *)
Definition le32 (z : Z) : list byte :=
  [byte_of_Z z; byte_of_Z (z / 2 ^ 8); byte_of_Z (z / 2 ^ 16);
   byte_of_Z (z / 2 ^ 24)].

Definition of_le32 (bs : list byte) : Z :=
  foldr (λ b acc, Z_of_byte b + 256 * acc)%Z 0%Z bs.

Definition data_bytes (d : data_t) : list byte :=
  le32 (pid d) ++ le32 (uid d) ++ command d ++ message d.

(** ** The Python side: ctypes and [str]

    A Python [str] is a sequence of code points; [bytes] are [list byte]. *)

Definition py_str := list N.

Definition text (s : string) : py_str :=
  (λ b, Byte.to_N b) <$> String.list_byte_of_string s.

(** [str(n)] for an [int]: decimal digits, with a minus sign when negative. *)
Definition str_of_int (n : Z) : py_str :=
  text (NilZero.string_of_int (Z.to_int n)).

Inductive exn := UnicodeDecodeError | UpdateError.

Inductive result (A : Type) :=
  | Ok (a : A)
  | Raise (e : exn).
Arguments Ok {A} a.
Arguments Raise {A} e.

Definition in_range (lo hi c : N) : bool := ((lo <=? c) && (c <=? hi))%N.

(** The range allowed for the byte that follows the lead byte [c0] of a
    three- or four-byte sequence: it excludes over-long forms, surrogates
    and code points above U+10FFFF. *)
Definition second_ok (c0 c1 : N) : bool :=
  if (c0 =? 0xE0)%N then in_range 0xA0 0xBF c1
  else if (c0 =? 0xED)%N then in_range 0x80 0x9F c1
  else if (c0 =? 0xF0)%N then in_range 0x90 0xBF c1
  else if (c0 =? 0xF4)%N then in_range 0x80 0x8F c1
  else in_range 0x80 0xBF c1.

(** [bytes.decode()]: strict UTF-8; [None] stands for the
    [UnicodeDecodeError] that Python raises on any malformed sequence. *)
Fixpoint utf8_decode (bs : list byte) : option py_str :=
  match bs with
  | [] => Some []
  | b0 :: r0 =>
    let c0 := Byte.to_N b0 in
    if (c0 <? 0x80)%N then cons c0 <$> utf8_decode r0
    else if in_range 0xC2 0xDF c0 then
      match r0 with
      | b1 :: r1 =>
        let c1 := Byte.to_N b1 in
        if in_range 0x80 0xBF c1
        then cons ((c0 - 0xC0) * 64 + (c1 - 0x80))%N <$> utf8_decode r1
        else None
      | _ => None
      end
    else if in_range 0xE0 0xEF c0 then
      match r0 with
      | b1 :: b2 :: r2 =>
        let c1 := Byte.to_N b1 in
        let c2 := Byte.to_N b2 in
        if second_ok c0 c1 && in_range 0x80 0xBF c2
        then cons ((c0 - 0xE0) * 4096 + (c1 - 0x80) * 64 + (c2 - 0x80))%N
               <$> utf8_decode r2
        else None
      | _ => None
      end
    else if in_range 0xF0 0xF4 c0 then
      match r0 with
      | b1 :: b2 :: b3 :: r3 =>
        let c1 := Byte.to_N b1 in
        let c2 := Byte.to_N b2 in
        let c3 := Byte.to_N b3 in
        if second_ok c0 c1 && in_range 0x80 0xBF c2 && in_range 0x80 0xBF c3
        then cons ((c0 - 0xF0) * 262144 + (c1 - 0x80) * 4096
                   + (c2 - 0x80) * 64 + (c3 - 0x80))%N
               <$> utf8_decode r3
        else None
      | _ => None
      end
    else None
  end.

Definition decode (bs : list byte) : result py_str :=
  match utf8_decode bs with
  | Some s => Ok s
  | None => Raise UnicodeDecodeError
  end.

(** [ct.create_string_buffer(init)]: the bytes and a terminating NUL. *)
Definition create_string_buffer (init : string) : list byte :=
  String.list_byte_of_string init ++ [x00].

(** The object [b["output"].event(data)] returns: a ctypes structure laid
    over the received block.  Reading an [int] field gives the signed
    value; reading a [char] array field gives the [bytes] up to the first
    NUL of the array (all of it when there is none). *)
Record event_t := Event {
  ev_pid : Z;
  ev_uid : Z;
  ev_command : list byte;
  ev_message : list byte
}.

Definition event (raw : list byte) : event_t :=
  {| ev_pid := to_s32 (of_le32 (take 4 raw));
     ev_uid := to_s32 (of_le32 (take 4 (drop 4 raw)));
     ev_command := c_str (take sizeof_command (drop 8 raw));
     ev_message :=
       c_str (take sizeof_message (drop (8 + sizeof_command) raw)) |}.

(** [print(f"{data.pid} {data.uid} {data.command.decode()}
    {data.message.decode()}")], shared by the perf-buffer and the
    ring-buffer script: the text written to standard output, or the
    exception raised while the line is built. *)
Definition print_event (raw : list byte) : result py_str :=
  let data := event raw in
  match decode (ev_command data) with
  | Raise e => Raise e
  | Ok command_text =>
    match decode (ev_message data) with
    | Raise e => Raise e
    | Ok message_text =>
      Ok (str_of_int (ev_pid data) ++ text " " ++ str_of_int (ev_uid data)
          ++ text " " ++ command_text ++ text " " ++ message_text
          ++ text (String (Ascii.ascii_of_nat 10) EmptyString))
    end
  end.

(** [b["config"][key] = leaf]: [bpf_update_elem] copies as many bytes as
    the map's value holds, starting at the address of [leaf]; when [leaf]
    is shorter, the rest comes from the memory that follows it, given here
    by offset as [beyond]. *)
Definition map_value (value_size : nat) (leaf : list byte)
    (beyond : nat → byte) : list byte :=
  take value_size (leaf ++ (beyond <$> seq 0 (value_size - length leaf))).

Definition config_setitem (value_size : nat) (config : gmap Z (list byte))
    (key : Z) (leaf : list byte) (beyond : nat → byte)
    : gmap Z (list byte) :=
  <[to_u32 key := map_value value_size leaf beyond]> config.

(** A configuration map is well formed when every value has the size the
    map was declared with. *)
Definition config_wf (value_size : nat) (config : gmap Z (list byte))
    : Prop :=
  map_Forall (λ _ v, length v = value_size) config.

(** The default text both probes hold in [char message[12]]. *)
Definition hello_world : list byte := char_array 12 "Hello World".

(** ** chapter04/hello-buffer-config.py *)

Module PerfBuf.

(** [struct user_msg_t { char message[13]; };] *)
Definition sizeof_user_msg : nat := 13.

(** [int hello(void *ctx)].  [stack] is what the slot of [data] held
    before the call; [config] is the map [BPF_HASH(config, u32, struct
    user_msg_t)].  The result is the record handed to
    [output.perf_submit] and the return value; [None] is an access
    outside a buffer.  [message_local] is the local array
    [char message[12]]. *)
Definition hello (stack : data_t) (config : gmap Z (list byte)) (t : task)
    : option (data_t * Z) :=
  let data := zero_init stack in
  let message_local := char_array 12 "Hello World" in
  let data_pid := to_s32 (bpf_get_current_pid_tgid t ≫ 32) in
  let data_uid := to_s32 (Z.land (bpf_get_current_uid_gid t) 0xFFFFFFFF) in
  data_command ← bpf_get_current_comm (command data) sizeof_command t;
  let p := config !! to_u32 data_uid in
  data_message ←
    match p with
    | Some p_message =>
        bpf_probe_read_kernel (message data) sizeof_message p_message
    | None =>
        bpf_probe_read_kernel (message data) sizeof_message message_local
    end;
  Some ({| pid := data_pid; uid := data_uid;
           command := data_command; message := data_message |}, 0%Z).

(** The two entries the script stores before it polls. *)
Definition seeded (beyond0 beyond501 : nat → byte) : gmap Z (list byte) :=
  config_setitem sizeof_user_msg
    (config_setitem sizeof_user_msg ∅
       0 (create_string_buffer "Hey root!") beyond0)
    501 (create_string_buffer "Hi user 501!") beyond501.

End PerfBuf.

(** ** chapter04/hello-ring-buffer-config.py *)

Module RingBuf.

(** [struct user_msg_t { char message[12]; };] *)
Definition sizeof_user_msg : nat := 12.

(** [int hello(void *ctx)]; the result is the record handed to
    [output.ringbuf_output] and the return value. *)
Definition hello (stack : data_t) (config : gmap Z (list byte)) (t : task)
    : option (data_t * Z) :=
  let data := zero_init stack in
  let message_local := char_array 12 "Hello World" in
  let data_pid := to_s32 (bpf_get_current_pid_tgid t ≫ 32) in
  let data_uid := to_s32 (Z.land (bpf_get_current_uid_gid t) 0xFFFFFFFF) in
  data_command ← bpf_get_current_comm (command data) sizeof_command t;
  let p := config !! to_u32 data_uid in
  data_message ←
    match p with
    | Some p_message =>
        bpf_probe_read_kernel (message data) sizeof_message p_message
    | None =>
        bpf_probe_read_kernel (message data) sizeof_message message_local
    end;
  Some ({| pid := data_pid; uid := data_uid;
           command := data_command; message := data_message |}, 0%Z).

(** The entry the script stores before it attaches the probe. *)
Definition seeded (beyond0 : nat → byte) : gmap Z (list byte) :=
  config_setitem sizeof_user_msg ∅
    0 (create_string_buffer "Hey root!") beyond0.

End RingBuf.

(** ** chapter02/hello-tail.py *)

Module TailCall.

(** The programs [b.load_func] loads; the script keeps their file
    descriptors in [ignore_fn], [exec_fn] and [timer_fn]. *)
Inductive fn := ignore_fn | exec_fn | timer_fn.

Global Instance fn_eq_dec : EqDecision fn.
Proof. solve_decision. Defined.

(** [struct bpf_raw_tracepoint_args]: the array [args] by index. *)
Record bpf_raw_tracepoint_args := Ctx { args : nat → Z }.

(** [BPF_PROG_ARRAY(syscall, 500)]: 500 slots, empty when created. *)
Definition max_entries : nat := 500.
Definition prog_array_new : list (option fn) := replicate max_entries None.

Definition MAX_TAIL_CALL_CNT : nat := 33.

(** [bpf_tail_call]: the slots it reads and the program it jumps to;
    no program means that control stays with the caller. *)
Definition bpf_tail_call (prog_array : list (option fn))
    (tail_call_cnt : nat) (index : Z) : list nat * option fn :=
  if decide (Z.of_nat (length prog_array) ≤ index)%Z then ([], None)
  else if decide (MAX_TAIL_CALL_CNT ≤ tail_call_cnt) then ([], None)
  else ([Z.to_nat index], mjoin (prog_array !! Z.to_nat index)).

Definition hello_exec (ctx : bpf_raw_tracepoint_args)
    : list trace_line * Z :=
  (bpf_trace_printk "Executing a program" [], 0%Z).

Definition hello_timer (ctx : bpf_raw_tracepoint_args)
    : list trace_line * Z :=
  let opcode := to_s32 (args ctx 1) in
  (if decide (opcode = 222%Z) then bpf_trace_printk "Creating a timer" []
   else if decide (opcode = 226%Z)
        then bpf_trace_printk "Deleting a timer" []
        else bpf_trace_printk "Some other timer operation" [],
   0%Z).

Definition ignore_opcode (ctx : bpf_raw_tracepoint_args)
    : list trace_line * Z :=
  ([], 0%Z).

Definition run (f : fn) (ctx : bpf_raw_tracepoint_args)
    : list trace_line * Z :=
  match f with
  | ignore_fn => ignore_opcode ctx
  | exec_fn => hello_exec ctx
  | timer_fn => hello_timer ctx
  end.

(** What one firing of the dispatcher did. *)
Record outcome := Outcome {
  slots_read : list nat;
  jumped_to : option fn;
  trace : list trace_line;
  ret : Z
}.

(** [int hello(struct bpf_raw_tracepoint_args *ctx)], attached to
    [sys_enter]; [syscall] is the program array. *)
Definition hello (syscall : list (option fn))
    (ctx : bpf_raw_tracepoint_args) : outcome :=
  let opcode := to_s32 (args ctx 1) in
  match bpf_tail_call syscall 0 (to_u32 opcode) with
  | (reads, Some f) =>
      let '(lines, r) := run f ctx in
      Outcome reads (Some f) lines r
  | (reads, None) =>
      Outcome reads None
        (bpf_trace_printk "Another syscall: %d" [ArgInt opcode]) 0%Z
  end.

(** [prog_array[ct.c_int(key)] = ct.c_int(fd)]: the update is refused
    (BCC raises) when the index lies outside the array. *)
Definition setitem (prog_array : list (option fn)) (key : Z) (leaf : fn)
    : result (list (option fn)) :=
  let index := to_u32 (to_s32 key) in
  if decide (index < Z.of_nat (length prog_array))%Z
  then Ok (<[Z.to_nat index := Some leaf]> prog_array)
  else Raise UpdateError.

Definition and_then {A B} (r : result A) (k : A → result B) : result B :=
  match r with
  | Ok a => k a
  | Raise e => Raise e
  end.

(** [for i in range(len(prog_array)): prog_array[i] = ignore_fn.fd] *)
Definition fill_default (prog_array : list (option fn))
    : result (list (option fn)) :=
  foldl (λ acc i, and_then acc (λ t, setitem t (Z.of_nat i) ignore_fn))
    (Ok prog_array) (seq 0 (length prog_array)).

(** The six assignments that follow the loop. *)
Definition install (prog_array : list (option fn))
    : result (list (option fn)) :=
  and_then (setitem prog_array 59 exec_fn) (λ t,
  and_then (setitem t 222 timer_fn) (λ t,
  and_then (setitem t 223 timer_fn) (λ t,
  and_then (setitem t 224 timer_fn) (λ t,
  and_then (setitem t 225 timer_fn) (λ t,
  setitem t 226 timer_fn))))).

Definition setup : result (list (option fn)) :=
  and_then (fill_default prog_array_new) install.

End TailCall.

(** ** chapter02/hello-map.py *)

Module HelloMap.

Section CounterTable.

(** The capacity of [BPF_HASH(counter_table, u32, u64)]; the macro
    fixes it, the script does not. *)
Variable max_entries : nat.

(** [counter_table.update] with [BPF_NOEXIST]: refused when the key is
    present or the table is full. *)
Definition insert_noexist (counter_table : gmap Z Z) (key value : Z)
    : option (gmap Z Z) :=
  if decide (is_Some (counter_table !! key)) then None
  else if decide (max_entries ≤ size counter_table) then None
  else Some (<[key := value]> counter_table).

(** [counter_table.lookup_or_init(&key, &zero)]: the table afterwards
    and the value [p] points to, [None] for a null [p]. *)
Definition lookup_or_init (counter_table : gmap Z Z) (key zero : Z)
    : gmap Z Z * option Z :=
  match counter_table !! key with
  | Some v => (counter_table, Some v)
  | None =>
      match insert_noexist counter_table key zero with
      | Some table' => (table', table' !! key)
      | None => (counter_table, None)
      end
  end.

(** [static __always_inline int count_up(void)]: the table afterwards
    and the return value. *)
Definition count_up (counter_table : gmap Z Z) (t : task)
    : gmap Z Z * Z :=
  let uid := to_u32 (Z.land (bpf_get_current_uid_gid t) 0xFFFFFFFF) in
  let zero := 0%Z in
  let '(table1, p) := lookup_or_init counter_table uid zero in
  match p with
  | Some v => (<[uid := to_u64 (v + 1)]> table1, 0%Z)
  | None => (table1, 0%Z)
  end.

(** [TRACEPOINT_PROBE(syscalls, sys_enter_execve)] and
    [TRACEPOINT_PROBE(syscalls, sys_enter_execveat)]. *)
Definition sys_enter_execve := count_up.
Definition sys_enter_execveat := count_up.

End CounterTable.

(** The size of a table declared with BCC's [BPF_HASH]. *)
Definition BPF_HASH_entries : nat := Z.to_nat 10240.

(** A table in which the UIDs 0 .. 10239 have each been counted once. *)
Definition full_table : gmap Z Z :=
  list_to_map ((λ i, (Z.of_nat i, 1%Z)) <$> seq 0 BPF_HASH_entries).

End HelloMap.

(** ** chapter09/hello-lsm.py *)

Module Lsm.

(** The part of [struct file] the probe reads:
    [f->f_path.dentry->d_iname]. *)
Record file := File { d_iname : list byte }.

(** [KFUNC_PROBE(security_file_permission, struct file *f, int mask)].
    [stack] is what the slot of [char command[256]] held before the
    call.  The result is the lines sent to the trace pipe and the
    return value. *)
Definition security_file_permission (stack : nat → byte) (t : task)
    (f : file) (mask : Z) : option (list trace_line * Z) :=
  let command := stack <$> seq 0 256 in
  command ← bpf_get_current_comm command 256 t;
  let uid := to_u32 (Z.land (bpf_get_current_uid_gid t) 0xFFFFFFFF) in
  if decide (uid ≠ 1001%Z) then Some ([], 0%Z)
  else
    Some (bpf_trace_printk "File %s mask %x"
            [ArgStr (c_str (d_iname f)); ArgInt (to_s32 mask)]
          ++ bpf_trace_printk "     opened by: %s" [ArgStr (c_str command)],
          0%Z).

End Lsm.

(** ** Sample inputs *)

(** A task with the given uid/gid pair and name. *)
Definition sample_task (ids : Z) (name : list byte) : task :=
  {| pid_tgid := 4321 * 2 ^ 32 + 4321; uid_gid := ids; comm := name |}.

(** Memory that holds ['A'] after a ctypes buffer. *)
Definition spill : nat → byte := λ _, x41.

(** A process named by fourteen ['a'] and the two bytes of ['é']; the
    kernel keeps fifteen bytes of the name. *)
Definition cut_name : list byte :=
  String.list_byte_of_string "aaaaaaaaaaaaaa" ++ [xc3; xa9].

(** The value the perf-buffer script stores for UID 501: thirteen bytes,
    the last one the terminating NUL. *)
Definition hi_user_501 : list byte :=
  map_value PerfBuf.sizeof_user_msg
    (create_string_buffer "Hi user 501!") spill.

(** The block of an event of process 4321, run by root as [bash]. *)
Definition sample_block : list byte :=
  data_bytes {| pid := 4321; uid := 0;
                command := char_array sizeof_command "bash";
                message := char_array sizeof_message "Hey root!" |}.

(** The context of a [sys_enter] event for syscall number [nr]. *)
Definition sys_enter (nr : Z) : TailCall.bpf_raw_tracepoint_args :=
  TailCall.Ctx (λ i, if decide (i = 1) then nr else 0%Z).

(** The file a probed task opens. *)
Definition passwd : Lsm.file :=
  Lsm.File (char_array 32 "passwd").

(** ** chapter02/hello-buffer.py *)

Module Buffer.

(** [int hello(void *ctx)]: the probe without a configuration map; the
    result is the record handed to [output.perf_submit] and the return
    value. *)
Definition hello (stack : data_t) (t : task) : option (data_t * Z) :=
  let data := zero_init stack in
  let message_local := char_array 12 "Hello World" in
  let data_pid := to_s32 (bpf_get_current_pid_tgid t ≫ 32) in
  let data_uid := to_s32 (Z.land (bpf_get_current_uid_gid t) 0xFFFFFFFF) in
  data_command ← bpf_get_current_comm (command data) sizeof_command t;
  data_message ←
    bpf_probe_read_kernel (message data) sizeof_message message_local;
  Some ({| pid := data_pid; uid := data_uid;
           command := data_command; message := data_message |}, 0%Z).

End Buffer.

(** ** chapter02/hello-map.py, the user loop *)

Module CounterLoop.

(** The table after the probe has fired once for each task of [ts], in
    that order. *)
Definition fire (max_entries : nat) (counter_table : gmap Z Z)
    (ts : list task) : gmap Z Z :=
  foldl (λ table t, (HelloMap.count_up max_entries table t).1)
    counter_table ts.

(** The body of the [while] loop after the tick line: [items] is the
    table as [b["counter_table"].items()] enumerates it; the result is
    the text of the last [print]. *)
Definition dump (items : list (Z * Z)) : py_str :=
  let s :=
    foldl (λ s kv, s ++ text "ID " ++ str_of_int kv.1 ++ text ": "
                     ++ str_of_int kv.2 ++ [9%N])
      [] items in
  (if decide (s = []) then text "(no entries yet)" else s) ++ [10%N].

End CounterLoop.

(** ** The text of [hello], over the helpers it calls

    The C text of [hello] is the same in both chapter-4 scripts.  Here it
    is once more with the two helpers it calls left open, so that what the
    probe itself guarantees can be told apart from what a helper
    guarantees. *)

Section ProbeText.

(** [bpf_get_current_comm] and the copy helper the probe is built with. *)
Variable get_comm : list byte → nat → task → option (list byte).
Variable probe_read : list byte → nat → list byte → option (list byte).


End ProbeText.





(** * Properties *)

(** ** Integer conversions *)

Lemma to_u32_to_s32 z : to_u32 (to_s32 z) = to_u32 z.
Proof.
  unfold to_u32, to_s32.
  rewrite Zminus_mod_idemp_l. f_equal. lia.
Qed.

Lemma to_s32_to_s32 z : to_s32 (to_s32 z) = to_s32 z.
Proof.
  unfold to_s32.
  replace ((z + 2 ^ 31) mod 2 ^ 32 - 2 ^ 31 + 2 ^ 31)%Z
    with ((z + 2 ^ 31) mod 2 ^ 32)%Z by lia.
  by rewrite Z.mod_mod.
Qed.

Lemma land_low32 z : Z.land z 0xFFFFFFFF = to_u32 z.
Proof. change 0xFFFFFFFF%Z with (Z.ones 32). by rewrite Z.land_ones. Qed.

Lemma to_u32_to_u64 z : to_u32 (to_u64 z) = to_u32 z.
Proof.
  unfold to_u32, to_u64.
  apply Zdiv.Z.mod_mod_divide. by exists (2 ^ 32)%Z.
Qed.

Lemma to_u32_idem z : to_u32 (to_u32 z) = to_u32 z.
Proof. unfold to_u32. by rewrite Z.mod_mod. Qed.

(** The key the probes look up is the effective UID of the task. *)
Lemma lookup_key_euid t :
  to_u32 (to_s32 (Z.land (bpf_get_current_uid_gid t) 0xFFFFFFFF)) = euid t.
Proof.
  unfold bpf_get_current_uid_gid, euid.
  by rewrite to_u32_to_s32, land_low32, to_u32_idem, to_u32_to_u64.
Qed.

(** ** Buffers *)

Lemma length_zeros n : length (zeros n) = n.
Proof. apply length_replicate. Qed.

Lemma c_str_no_nul buf : x00 ∉ c_str buf.
Proof.
  induction buf as [|b rest IH]; simpl; [apply not_elem_of_nil |].
  destruct (Byte.eqb b x00) eqn:E; [apply not_elem_of_nil |].
  rewrite not_elem_of_cons. split; [| done].
  intros Hb. apply Byte.eqb_false in E. congruence.
Qed.

Lemma c_str_app_nul s rest : x00 ∉ s → c_str (s ++ x00 :: rest) = s.
Proof.
  induction s as [|b s IH]; simpl; [done |].
  rewrite not_elem_of_cons. intros [Hb Hs].
  destruct (Byte.eqb b x00) eqn:E.
  - apply Byte.byte_dec_bl in E. congruence.
  - by rewrite IH.
Qed.


Lemma length_task_comm t : length (task_comm t) ≤ 15.
Proof. unfold task_comm, TASK_COMM_LEN. rewrite length_take. lia. Qed.

Lemma task_comm_no_nul t : x00 ∉ task_comm t.
Proof.
  unfold task_comm. intros H. apply elem_of_take in H as (i & H & _).
  apply (c_str_no_nul (comm t)). by eapply list_elem_of_lookup_2.
Qed.

(** ** The record codec *)

Lemma Z_of_byte_of_Z z : Z_of_byte (byte_of_Z z) = (z mod 256)%Z.
Proof.
  unfold Z_of_byte, byte_of_Z.
  assert (0 ≤ z mod 256 < 256)%Z as Hr by (apply Z.mod_pos_bound; lia).
  pose proof (Byte.to_of_N_option_map (Z.to_N (z mod 256))) as H.
  destruct (N.leb_spec (Z.to_N (z mod 256)) 255) as [_ | Hgt]; [| lia].
  destruct (Byte.of_N (Z.to_N (z mod 256))) as [b |]; [| done].
  simpl in *. injection H as ->. lia.
Qed.

Lemma of_le32_le32 z : of_le32 (le32 z) = to_u32 z.
Proof.
  unfold of_le32, le32, to_u32. simpl. rewrite !Z_of_byte_of_Z.
  change (2 ^ 8)%Z with 256%Z. change (2 ^ 16)%Z with (256 * 256)%Z.
  change (2 ^ 24)%Z with (256 * 256 * 256)%Z.
  change (2 ^ 32)%Z with (256 * 256 * 256 * 256)%Z.
  rewrite <- !Z.div_div by lia.
  pose proof (Z.div_mod z 256 ltac:(lia)).
  pose proof (Z.div_mod (z / 256) 256 ltac:(lia)).
  pose proof (Z.div_mod (z / 256 / 256) 256 ltac:(lia)).
  pose proof (Z.div_mod (z / 256 / 256 / 256) 256 ltac:(lia)).
  pose proof (Z.mod_pos_bound z 256 ltac:(lia)).
  pose proof (Z.mod_pos_bound (z / 256) 256 ltac:(lia)).
  pose proof (Z.mod_pos_bound (z / 256 / 256) 256 ltac:(lia)).
  pose proof (Z.mod_pos_bound (z / 256 / 256 / 256) 256 ltac:(lia)).
  apply (Z.mod_unique_pos _ _ (z / 256 / 256 / 256 / 256)); lia.
Qed.

Lemma to_s32_to_u32 z : to_s32 (to_u32 z) = to_s32 z.
Proof.
  unfold to_s32, to_u32. by rewrite Zplus_mod_idemp_l.
Qed.

Lemma length_le32 z : length (le32 z) = 4.
Proof. done. Qed.

(** Decoding the block of a record gives its fields back: the integers as
    32-bit signed values, the character arrays up to their first NUL. *)
Lemma event_data_bytes d :
  length (command d) = sizeof_command →
  length (message d) = sizeof_message →
  event (data_bytes d) =
    {| ev_pid := to_s32 (pid d); ev_uid := to_s32 (uid d);
       ev_command := c_str (command d); ev_message := c_str (message d) |}.
Proof.
  intros Hc Hm. unfold event, data_bytes.
  set (rest := command d ++ message d).
  assert (take 4 (le32 (pid d) ++ le32 (uid d) ++ rest) = le32 (pid d))
    as -> by done.
  assert (take 4 (drop 4 (le32 (pid d) ++ le32 (uid d) ++ rest))
          = le32 (uid d)) as -> by done.
  assert (drop 8 (le32 (pid d) ++ le32 (uid d) ++ rest) = rest) as -> by done.
  assert (drop (8 + sizeof_command) (le32 (pid d) ++ le32 (uid d) ++ rest)
          = message d) as ->.
  { change (drop (8 + sizeof_command) ?l) with (drop sizeof_command (drop 8 l)).
    change (drop 8 (le32 (pid d) ++ le32 (uid d) ++ rest)) with rest.
    subst rest. by rewrite <- Hc, drop_app_length. }
  subst rest. rewrite <- Hc at 1. rewrite take_app_length.
  rewrite <- Hm at 1. rewrite firstn_all.
  by rewrite !of_le32_le32, !to_s32_to_u32.
Qed.

(** ** The two [hello] probes of chapter 4 *)

Lemma comm_into_zero t :
  bpf_get_current_comm (command data_zero) sizeof_command t =
    Some (task_comm t ++ zeros (sizeof_command - length (task_comm t))).
Proof.
  pose proof (length_task_comm t) as Hlen.
  unfold bpf_get_current_comm.
  assert (length (command data_zero) = sizeof_command) as Hdst
    by apply length_zeros.
  rewrite decide_True by lia.
  unfold sizeof_command in *.
  rewrite take_ge by lia.
  rewrite drop_ge by lia.
  by rewrite app_nil_r.
Qed.

Lemma probe_read_into_zero src :
  sizeof_message ≤ length src →
  bpf_probe_read_kernel (message data_zero) sizeof_message src =
    Some (take sizeof_message src).
Proof.
  intros Hsrc. unfold bpf_probe_read_kernel.
  assert (length (message data_zero) = sizeof_message) as Hdst
    by apply length_zeros.
  rewrite decide_True by lia.
  rewrite drop_ge by lia.
  by rewrite app_nil_r.
Qed.

(** The bounded copy stays inside both buffers exactly when its bound
    fits both. *)
Lemma probe_read_is_Some dst size src :
  is_Some (bpf_probe_read_kernel dst size src)
  ↔ size ≤ length dst `min` length src.
Proof.
  unfold bpf_probe_read_kernel. case_decide as H.
  - split; [lia | eauto].
  - split; [by intros [? ?] | lia].
Qed.

(** A bounded copy changes the first [size] bytes and nothing else. *)
Lemma probe_read_tail dst size src r i :
  bpf_probe_read_kernel dst size src = Some r →
  size ≤ i → r !! i = dst !! i.
Proof.
  unfold bpf_probe_read_kernel. case_decide as H; [| done].
  intros [= <-] Hi.
  rewrite lookup_app_r by (rewrite length_take; lia).
  rewrite length_take, lookup_drop. f_equal. lia.
Qed.

(** What [hello] submits, in closed form.  The C text of the probe is the
    same in both scripts, so one statement serves both. *)
Lemma perf_hello_eq stack config t :
  map_Forall (λ _ v, sizeof_message ≤ length v) config →
  PerfBuf.hello stack config t =
    Some ({| pid := to_s32 (bpf_get_current_pid_tgid t ≫ 32);
             uid := to_s32 (euid t);
             command :=
               task_comm t ++ zeros (sizeof_command - length (task_comm t));
             message :=
               take sizeof_message (default hello_world (config !! euid t)) |},
          0%Z).
Proof.
  intros Hwf. unfold PerfBuf.hello.
  rewrite lookup_key_euid, comm_into_zero.
  assert (to_s32 (Z.land (bpf_get_current_uid_gid t) 4294967295)
          = to_s32 (euid t)) as ->.
  { unfold euid, bpf_get_current_uid_gid.
    by rewrite land_low32, to_u32_to_u64. }
  destruct (config !! euid t) as [v |] eqn:E.
  - rewrite probe_read_into_zero by exact (Hwf _ _ E). done.
  - rewrite probe_read_into_zero by done. done.
Qed.

Lemma ring_hello_eq stack config t :
  map_Forall (λ _ v, sizeof_message ≤ length v) config →
  RingBuf.hello stack config t =
    Some ({| pid := to_s32 (bpf_get_current_pid_tgid t ≫ 32);
             uid := to_s32 (euid t);
             command :=
               task_comm t ++ zeros (sizeof_command - length (task_comm t));
             message :=
               take sizeof_message (default hello_world (config !! euid t)) |},
          0%Z).
Proof. exact (perf_hello_eq stack config t). Qed.

Lemma config_wf_ge n config :
  sizeof_message ≤ n → config_wf n config →
  map_Forall (λ _ v, sizeof_message ≤ length v) config.
Proof. intros Hn Hwf k v Hk. rewrite (Hwf k v Hk). done. Qed.

Lemma length_padded_comm t :
  length (task_comm t ++ zeros (sizeof_command - length (task_comm t)))
  = sizeof_command.
Proof.
  pose proof (length_task_comm t). unfold sizeof_command.
  rewrite length_app, length_zeros. lia.
Qed.

Lemma c_str_padded_comm t :
  c_str (task_comm t ++ zeros (sizeof_command - length (task_comm t)))
  = task_comm t.
Proof.
  pose proof (length_task_comm t) as Hlen. unfold sizeof_command.
  destruct (16 - length (task_comm t)) as [|k] eqn:E; [lia |].
  simpl. apply c_str_app_nul, task_comm_no_nul.
Qed.

Lemma length_config_value n config k v :
  config_wf n config → config !! k = Some v → length v = n.
Proof. intros Hwf Hk. exact (Hwf k v Hk). Qed.

Lemma length_map_value n leaf beyond : length (map_value n leaf beyond) = n.
Proof.
  unfold map_value.
  rewrite length_take, length_app, length_fmap, length_seq. lia.
Qed.

Lemma config_setitem_wf n config key leaf beyond :
  config_wf n config → config_wf n (config_setitem n config key leaf beyond).
Proof.
  intros Hwf. apply map_Forall_insert_2; [apply length_map_value | done].
Qed.

Lemma perf_seeded_wf beyond0 beyond501 :
  config_wf PerfBuf.sizeof_user_msg (PerfBuf.seeded beyond0 beyond501).
Proof. do 2 apply config_setitem_wf. apply map_Forall_empty. Qed.

Lemma ring_seeded_wf beyond0 :
  config_wf RingBuf.sizeof_user_msg (RingBuf.seeded beyond0).
Proof. apply config_setitem_wf. apply map_Forall_empty. Qed.

(** ** Claims about the configuration store and the event record *)

(** C1.  In the perf-buffer script, for every triggering event the probe
    submits a record; when the effective UID has no entry in [config] the
    decoded message is the default text "Hello World", and when it has an
    entry the message field is exactly the first 12 bytes of that entry's
    value (decoded: those bytes up to their first NUL). *)
Theorem C1_lookup_or_default
    (stack : data_t) (config : gmap Z (list byte)) (t : task) :
  config_wf PerfBuf.sizeof_user_msg config →
  ∃ d, PerfBuf.hello stack config t = Some (d, 0%Z) ∧
    match config !! euid t with
    | None =>
        ev_message (event (data_bytes d))
        = String.list_byte_of_string "Hello World"
    | Some v =>
        message d = take sizeof_message v ∧
        ev_message (event (data_bytes d)) = c_str (take sizeof_message v)
    end.
Proof.
  intros Hwf.
  assert (map_Forall (λ _ v, sizeof_message ≤ length v) config) as Hge.
  { eapply config_wf_ge; [| exact Hwf]. unfold PerfBuf.sizeof_user_msg,
      sizeof_message. lia. }
  eexists. split; [exact (perf_hello_eq stack config t Hge) |].
  rewrite event_data_bytes; cbn [command message ev_message].
  - destruct (config !! euid t) as [v |] eqn:E; cbn [from_option id]; done.
  - apply length_padded_comm.
  - rewrite length_take. destruct (config !! euid t) as [v |] eqn:E.
    + cbn [from_option id]. pose proof (Hge _ _ E) as Hv. cbn beta in Hv. lia.
    + done.
Qed.

(** The two scenarios of the script: nothing stored for UID 42, and
    "Hey root!" stored for UID 0. *)
Lemma C1_witness :
  (∃ d, PerfBuf.hello data_zero ∅ (sample_task 42 []) = Some (d, 0%Z) ∧
        ev_message (event (data_bytes d))
        = String.list_byte_of_string "Hello World") ∧
  (∃ d, PerfBuf.hello data_zero (PerfBuf.seeded spill spill)
          (sample_task 0 []) = Some (d, 0%Z) ∧
        ev_message (event (data_bytes d))
        = String.list_byte_of_string "Hey root!").
Proof.
  split.
  - destruct (C1_lookup_or_default data_zero ∅ (sample_task 42 []))
      as (d & Hd & Hm); [apply map_Forall_empty |].
    exists d. split; [exact Hd | exact Hm].
  - destruct (C1_lookup_or_default data_zero (PerfBuf.seeded spill spill)
                (sample_task 0 [])) as (d & Hd & Hm);
      [apply perf_seeded_wf |].
    exists d. split; [exact Hd |].
    destruct Hm as [_ Hm]. exact Hm.
Defined.

(** C2.  In the perf-buffer script the copy of a [config] value into
    [data.message] is bounded by [sizeof(data.message)] = 12, the smaller
    of the two capacities 13 and 12: the copy succeeds, reads the first 12
    of the value's 13 bytes and drops the last one, and 12 is the largest
    bound for which the copy stays inside both buffers. *)
Theorem C2_copy_bound
    (stack : data_t) (config : gmap Z (list byte)) (t : task)
    (v : list byte) :
  config_wf PerfBuf.sizeof_user_msg config →
  config !! euid t = Some v →
  sizeof_message = PerfBuf.sizeof_user_msg `min` sizeof_message ∧
  sizeof_message = 12 ∧
  length v = 13 ∧ length (message data_zero) = 12 ∧
  (∀ size, is_Some (bpf_probe_read_kernel (message data_zero) size v)
           ↔ size ≤ PerfBuf.sizeof_user_msg `min` sizeof_message) ∧
  ∃ d last,
    PerfBuf.hello stack config t = Some (d, 0%Z) ∧
    bpf_probe_read_kernel (message data_zero) sizeof_message v
      = Some (message d) ∧
    length (message d) = 12 ∧
    v = message d ++ [last].
Proof.
  intros Hwf Hv.
  pose proof (length_config_value _ _ _ _ Hwf Hv) as Hlen.
  unfold PerfBuf.sizeof_user_msg in Hlen.
  split; [done |]. split; [done |]. split; [done |]. split; [done |].
  split.
  { intros size. rewrite probe_read_is_Some, Hlen. done. }
  assert (map_Forall (λ _ v, sizeof_message ≤ length v) config) as Hge.
  { eapply config_wf_ge; [| exact Hwf]. unfold PerfBuf.sizeof_user_msg,
      sizeof_message. lia. }
  pose proof (perf_hello_eq stack config t Hge) as Hd.
  rewrite Hv in Hd. cbn [from_option id] in Hd.
  assert (∃ last, drop sizeof_message v = [last]) as [last Hlast].
  { destruct (drop sizeof_message v) as [| b [| ? ?]] eqn:E.
    - apply (f_equal length) in E. rewrite length_drop, Hlen in E. done.
    - by exists b.
    - apply (f_equal length) in E. rewrite length_drop, Hlen in E. done. }
  eexists _, last. split; [exact Hd |]. cbn [message]. split.
  - apply probe_read_into_zero. rewrite Hlen. unfold sizeof_message. lia.
  - split.
    + rewrite length_take, Hlen. done.
    + rewrite <- Hlast. by rewrite take_drop.
Qed.

Lemma C2_witness :
  sizeof_message = PerfBuf.sizeof_user_msg `min` sizeof_message ∧
  sizeof_message = 12 ∧
  length hi_user_501 = 13 ∧ length (message data_zero) = 12 ∧
  (∀ size,
     is_Some (bpf_probe_read_kernel (message data_zero) size hi_user_501)
     ↔ size ≤ PerfBuf.sizeof_user_msg `min` sizeof_message) ∧
  ∃ d last,
    PerfBuf.hello data_zero (PerfBuf.seeded spill spill)
      (sample_task 501 []) = Some (d, 0%Z) ∧
    bpf_probe_read_kernel (message data_zero) sizeof_message hi_user_501
      = Some (message d) ∧
    length (message d) = 12 ∧
    hi_user_501 = message d ++ [last].
Proof.
  apply (C2_copy_bound data_zero (PerfBuf.seeded spill spill)
           (sample_task 501 []) hi_user_501).
  - apply perf_seeded_wf.
  - reflexivity.
Defined.

(** C3 as stated fails for the perf-buffer script: its [config] value
    holds 13 bytes, one more than the 12 bytes of [data.message], and the
    value stored for UID 501 reaches the event without its last byte. *)
Lemma C3_counterexample :
  ¬ (PerfBuf.sizeof_user_msg ≤ sizeof_message
     ∧ RingBuf.sizeof_user_msg ≤ sizeof_message)
  ∧ PerfBuf.seeded spill spill !! 501%Z = Some hi_user_501
  ∧ ∃ d, PerfBuf.hello data_zero (PerfBuf.seeded spill spill)
           (sample_task 501 []) = Some (d, 0%Z)
         ∧ message d ≠ hi_user_501
         ∧ hi_user_501 = message d ++ [x00].
Proof.
  split.
  { unfold PerfBuf.sizeof_user_msg, sizeof_message. lia. }
  split; [reflexivity |].
  eexists. split; [reflexivity |]. split; [discriminate | reflexivity].
Qed.

(** C3, amended.  In the ring-buffer script the [config] value capacity
    (12) does not exceed the capacity of [data.message] (12), and every
    stored value reaches the event record whole.  In the perf-buffer script
    the value capacity is 13, one more than the message field, and every
    stored value reaches the event record without its last byte. *)
Theorem C3_capacities
    (stack : data_t) (ring_config perf_config : gmap Z (list byte))
    (t : task) (v w : list byte) :
  config_wf RingBuf.sizeof_user_msg ring_config →
  ring_config !! euid t = Some v →
  config_wf PerfBuf.sizeof_user_msg perf_config →
  perf_config !! euid t = Some w →
  (RingBuf.sizeof_user_msg ≤ sizeof_message ∧
   ∃ d, RingBuf.hello stack ring_config t = Some (d, 0%Z) ∧ message d = v)
  ∧
  (PerfBuf.sizeof_user_msg = S sizeof_message ∧
   ∃ d, PerfBuf.hello stack perf_config t = Some (d, 0%Z) ∧
        message d = removelast w ∧ message d ≠ w).
Proof.
  intros Hwf_r Hv Hwf_p Hw. split; (split; [done |]).
  - pose proof (length_config_value _ _ _ _ Hwf_r Hv) as Hlen.
    pose proof (ring_hello_eq stack ring_config t
                  (config_wf_ge _ _ (le_n _) Hwf_r)) as Hd.
    rewrite Hv in Hd. cbn [from_option id] in Hd.
    eexists. split; [exact Hd |]. cbn [message].
    apply take_ge. rewrite Hlen. done.
  - pose proof (length_config_value _ _ _ _ Hwf_p Hw) as Hlen.
    pose proof (perf_hello_eq stack perf_config t
                  (config_wf_ge _ _ (le_S _ _ (le_n _)) Hwf_p)) as Hd.
    rewrite Hw in Hd. cbn [from_option id] in Hd.
    eexists. split; [exact Hd |]. cbn [message]. split.
    + rewrite removelast_firstn_len, Hlen. done.
    + intros Heq. apply (f_equal length) in Heq.
      rewrite length_take, Hlen in Heq. done.
Qed.

Lemma C3_witness :
  (RingBuf.sizeof_user_msg ≤ sizeof_message ∧
   ∃ d, RingBuf.hello data_zero (RingBuf.seeded spill) (sample_task 0 [])
        = Some (d, 0%Z)
        ∧ message d = map_value RingBuf.sizeof_user_msg
                        (create_string_buffer "Hey root!") spill)
  ∧
  (PerfBuf.sizeof_user_msg = S sizeof_message ∧
   ∃ d, PerfBuf.hello data_zero (PerfBuf.seeded spill spill)
          (sample_task 0 []) = Some (d, 0%Z) ∧
        message d = removelast (map_value PerfBuf.sizeof_user_msg
                        (create_string_buffer "Hey root!") spill)
        ∧ message d ≠ map_value PerfBuf.sizeof_user_msg
                        (create_string_buffer "Hey root!") spill).
Proof.
  apply (C3_capacities data_zero (RingBuf.seeded spill)
           (PerfBuf.seeded spill spill) (sample_task 0 [])).
  - apply ring_seeded_wf.
  - reflexivity.
  - apply perf_seeded_wf.
  - reflexivity.
Defined.

(** On a zero-filled buffer, the bytes a bounded copy does not reach stay
    zero; on any other buffer they keep what the buffer held. *)
Lemma probe_read_zeros n size src :
  match bpf_probe_read_kernel (zeros n) size src with
  | Some r => drop size r = zeros (n - size)
  | None => ¬ (size ≤ n ∧ size ≤ length src)
  end.
Proof.
  unfold bpf_probe_read_kernel. rewrite length_zeros.
  case_decide as H; [| done].
  rewrite drop_app_length' by (rewrite length_take; lia).
  apply drop_replicate.
Qed.







(** ** The display callback *)

Lemma to_N_nonzero b : b ≠ x00 → Byte.to_N b ≠ 0%N.
Proof.
  intros Hb H0. apply Hb.
  pose proof (Byte.of_to_N b) as H. rewrite H0 in H. by injection H.
Qed.

Lemma in_range_spec lo hi c :
  in_range lo hi c = true ↔ (lo ≤ c ∧ c ≤ hi)%N.
Proof.
  unfold in_range. rewrite andb_true_iff, !N.leb_le. done.
Qed.

Lemma second_ok_ge c0 c1 : second_ok c0 c1 = true → (0x80 ≤ c1)%N.
Proof.
  unfold second_ok.
  repeat case_match; rewrite in_range_spec; lia.
Qed.

Lemma second_ok_E0 c1 : second_ok 0xE0 c1 = true → (0xA0 ≤ c1)%N.
Proof. unfold second_ok. simpl. rewrite in_range_spec. lia. Qed.

Lemma second_ok_F0 c1 : second_ok 0xF0 c1 = true → (0x90 ≤ c1)%N.
Proof. unfold second_ok. simpl. rewrite in_range_spec. lia. Qed.

Lemma fmap_cons_Some (c : N) (o : option py_str) s :
  cons c <$> o = Some s → ∃ s', o = Some s' ∧ s = c :: s'.
Proof. destruct o as [s' |]; [| done]. intros [= <-]. eauto. Qed.

(** Text decoded from bytes without NUL holds no NUL code point. *)
Lemma utf8_decode_no_nul n : ∀ bs s,
  length bs ≤ n → x00 ∉ bs → utf8_decode bs = Some s → 0%N ∉ s.
Proof.
  induction n as [| n IH]; intros bs s Hlen Hnul Hdec.
  { destruct bs; [| simpl in Hlen; lia].
    injection Hdec as <-. apply not_elem_of_nil. }
  destruct bs as [| b0 r0].
  { injection Hdec as <-. apply not_elem_of_nil. }
  apply not_elem_of_cons in Hnul as [Hb0 Hr0].
  pose proof (to_N_nonzero b0 ltac:(congruence)) as Hc0.
  cbn [utf8_decode] in Hdec. cbv zeta in Hdec.
  destruct (Byte.to_N b0 <? 128)%N eqn:E1.
  { apply fmap_cons_Some in Hdec as (s' & Hs' & ->).
    apply not_elem_of_cons. split; [congruence |].
    apply (IH r0); [simpl in Hlen; lia | done | done]. }
  destruct (in_range 194 223 (Byte.to_N b0)) eqn:E2.
  { apply in_range_spec in E2.
    destruct r0 as [| b1 r1]; [done |].
    destruct (in_range 128 191 (Byte.to_N b1)) eqn:E3; [| done].
    apply in_range_spec in E3.
    apply fmap_cons_Some in Hdec as (s' & Hs' & ->).
    apply not_elem_of_cons in Hr0 as [_ Hr1].
    apply not_elem_of_cons. split; [lia |].
    apply (IH r1); [simpl in Hlen; lia | done | done]. }
  destruct (in_range 224 239 (Byte.to_N b0)) eqn:E4.
  { apply in_range_spec in E4.
    destruct r0 as [| b1 [| b2 r2]]; [done | done |].
    destruct (second_ok (Byte.to_N b0) (Byte.to_N b1)) eqn:E5; [| done].
    destruct (in_range 128 191 (Byte.to_N b2)) eqn:E6; [| done].
    apply in_range_spec in E6. simpl in Hdec.
    apply fmap_cons_Some in Hdec as (s' & Hs' & ->).
    apply not_elem_of_cons in Hr0 as [_ Hr1].
    apply not_elem_of_cons in Hr1 as [_ Hr2].
    apply not_elem_of_cons. split.
    - destruct (decide (Byte.to_N b0 = 224%N)) as [He | Hne].
      + rewrite He in *. apply second_ok_E0 in E5. lia.
      + apply second_ok_ge in E5. lia.
    - apply (IH r2); [simpl in Hlen; lia | done | done]. }
  destruct (in_range 240 244 (Byte.to_N b0)) eqn:E7; [| done].
  apply in_range_spec in E7.
  destruct r0 as [| b1 [| b2 [| b3 r3]]]; [done | done | done |].
  destruct (second_ok (Byte.to_N b0) (Byte.to_N b1)) eqn:E5; [| done].
  destruct (in_range 128 191 (Byte.to_N b2)) eqn:E6; [| done].
  destruct (in_range 128 191 (Byte.to_N b3)) eqn:E8; [| done].
  apply in_range_spec in E6. apply in_range_spec in E8. simpl in Hdec.
  apply fmap_cons_Some in Hdec as (s' & Hs' & ->).
  apply not_elem_of_cons in Hr0 as [_ Hr1].
  apply not_elem_of_cons in Hr1 as [_ Hr2].
  apply not_elem_of_cons in Hr2 as [_ Hr3].
  apply not_elem_of_cons. split.
  - destruct (decide (Byte.to_N b0 = 240%N)) as [He | Hne].
    + rewrite He in *. apply second_ok_F0 in E5. lia.
    + apply second_ok_ge in E5. lia.
  - apply (IH r3); [simpl in Hlen; lia | done | done].
Qed.

(** Bytes below 0x80 decode to themselves. *)
Lemma utf8_decode_ascii bs :
  Forall (λ b, (Byte.to_N b < 0x80)%N) bs →
  utf8_decode bs = Some (Byte.to_N <$> bs).
Proof.
  induction 1 as [| b bs Hb _ IH]; [done |].
  cbn [utf8_decode]. cbv zeta.
  apply N.ltb_lt in Hb. rewrite Hb, IH. done.
Qed.

(** C8 as stated fails for an event whose command is not valid UTF-8: a
    process name cut by the kernel in the middle of a two-byte character
    makes [data.command.decode()] raise, and no line is written. *)
Lemma C8_counterexample :
  ∃ d, PerfBuf.hello data_zero ∅ (sample_task 1000 cut_name)
       = Some (d, 0%Z)
       ∧ print_event (data_bytes d) = Raise UnicodeDecodeError.
Proof. eexists. split; reflexivity. Qed.

(** C8, amended.  For every received block whose command and message
    fields, read up to their first NUL, are valid UTF-8, the callback
    writes the line [pid uid command message]: the two integers in
    decimal, the two decoded texts, single spaces between them and a
    newline at the end; the texts hold no NUL. *)
Theorem C8_display_line
    (raw : list byte) (command_text message_text : py_str) :
  decode (ev_command (event raw)) = Ok command_text →
  decode (ev_message (event raw)) = Ok message_text →
  print_event raw
  = Ok (str_of_int (ev_pid (event raw)) ++ text " "
        ++ str_of_int (ev_uid (event raw)) ++ text " "
        ++ command_text ++ text " " ++ message_text ++ [10%N])
  ∧ ev_command (event raw) = c_str (take sizeof_command (drop 8 raw))
  ∧ ev_message (event raw)
    = c_str (take sizeof_message (drop (8 + sizeof_command) raw))
  ∧ (0%N ∉ command_text) ∧ (0%N ∉ message_text).
Proof.
  intros Hc Hm. split; [| split; [done | split; [done |]]].
  - unfold print_event. rewrite Hc, Hm. done.
  - unfold decode in Hc, Hm.
    destruct (utf8_decode (ev_command (event raw))) as [c |] eqn:Ec;
      [| done].
    destruct (utf8_decode (ev_message (event raw))) as [m |] eqn:Em;
      [| done].
    injection Hc as <-. injection Hm as <-. split.
    + eapply utf8_decode_no_nul; [done | apply c_str_no_nul | exact Ec].
    + eapply utf8_decode_no_nul; [done | apply c_str_no_nul | exact Em].
Qed.

Lemma C8_witness :
  print_event sample_block = Ok (text "4321 0 bash Hey root!" ++ [10%N])
  ∧ ev_command (event sample_block)
    = c_str (take sizeof_command (drop 8 sample_block))
  ∧ ev_message (event sample_block)
    = c_str (take sizeof_message (drop (8 + sizeof_command) sample_block))
  ∧ (0%N ∉ text "bash") ∧ (0%N ∉ text "Hey root!").
Proof.
  apply (C8_display_line sample_block (text "bash") (text "Hey root!"));
    reflexivity.
Defined.

(** ** The tail-call dispatcher *)

Section Dispatch.
Import TailCall.

Lemma to_u32_small z : (0 ≤ z < 2 ^ 32)%Z → to_u32 z = z.
Proof. intros Hz. unfold to_u32. by apply Z.mod_small. Qed.

Lemma to_s32_range z : (- 2 ^ 31 ≤ to_s32 z < 2 ^ 31)%Z.
Proof.
  unfold to_s32.
  pose proof (Z.mod_pos_bound (z + 2 ^ 31) (2 ^ 32) ltac:(lia)). lia.
Qed.

Lemma to_u32_negative z :
  (- 2 ^ 31 ≤ z < 0)%Z → to_u32 z = (z + 2 ^ 32)%Z.
Proof.
  intros Hz. unfold to_u32. symmetry.
  apply (Z.mod_unique_pos _ _ (-1)); lia.
Qed.

(** An opcode inside the table: the slot is read, and its content
    decides between jump and fall-through. *)
Lemma hello_in_bounds (syscall : list (option fn)) ctx :
  (0 ≤ to_s32 (args ctx 1) < Z.of_nat (length syscall))%Z →
  hello syscall ctx =
    match mjoin (syscall !! Z.to_nat (to_s32 (args ctx 1))) with
    | Some f =>
        Outcome [Z.to_nat (to_s32 (args ctx 1))] (Some f)
          (run f ctx).1 (run f ctx).2
    | None =>
        Outcome [Z.to_nat (to_s32 (args ctx 1))] None
          (bpf_trace_printk "Another syscall: %d"
             [ArgInt (to_s32 (args ctx 1))]) 0%Z
    end.
Proof.
  intros Hop. unfold hello, bpf_tail_call.
  pose proof (to_s32_range (args ctx 1)).
  rewrite to_u32_small by lia.
  rewrite decide_False by lia.
  rewrite decide_False by (unfold MAX_TAIL_CALL_CNT; lia).
  destruct (mjoin (syscall !! Z.to_nat (to_s32 (args ctx 1)))) as [f |];
    [| done].
  by destruct (run f ctx).
Qed.

(** An opcode outside the table: no slot is read. *)
Lemma hello_out_of_bounds (syscall : list (option fn)) ctx :
  length syscall = max_entries →
  ¬ (0 ≤ to_s32 (args ctx 1) < Z.of_nat (length syscall))%Z →
  hello syscall ctx =
    Outcome [] None
      (bpf_trace_printk "Another syscall: %d"
         [ArgInt (to_s32 (args ctx 1))]) 0%Z.
Proof.
  intros Hlen Hop. unfold hello, bpf_tail_call.
  pose proof (to_s32_range (args ctx 1)) as Hr.
  rewrite Hlen in *. unfold max_entries in *.
  destruct (decide (to_s32 (args ctx 1) < 0)%Z) as [Hneg | Hpos].
  - rewrite to_u32_negative by lia. rewrite decide_True by lia. done.
  - rewrite to_u32_small by lia. rewrite decide_True by lia. done.
Qed.

Lemma fill_default_new :
  fill_default prog_array_new = Ok (replicate max_entries (Some ignore_fn)).
Proof. vm_compute. reflexivity. Qed.

Lemma setup_eq :
  setup = Ok (<[226 := Some timer_fn]> (<[225 := Some timer_fn]>
             (<[224 := Some timer_fn]> (<[223 := Some timer_fn]>
             (<[222 := Some timer_fn]> (<[59 := Some exec_fn]>
             (replicate max_entries (Some ignore_fn)))))))).
Proof. vm_compute. reflexivity. Qed.


(** C5.  The loop writes [ignore_fn] into every one of the 500 slots of
    the new program array, and the overrides are applied to the table the
    loop leaves.  On that table, before any override, an event with an
    in-bounds opcode jumps to [ignore_opcode]: the dispatcher does not fall
    through and nothing is logged.  After the overrides every slot still
    holds a program. *)
Theorem C5_default_before_override (ctx : bpf_raw_tracepoint_args) :
  (0 ≤ to_s32 (args ctx 1) < Z.of_nat max_entries)%Z →
  length prog_array_new = 500
  ∧ fill_default prog_array_new = Ok (replicate 500 (Some ignore_fn))
  ∧ setup = install (replicate 500 (Some ignore_fn))
  ∧ hello (replicate 500 (Some ignore_fn)) ctx
    = Outcome [Z.to_nat (to_s32 (args ctx 1))] (Some ignore_fn) [] 0%Z
  ∧ ∃ table f, setup = Ok table ∧ length table = 500
               ∧ jumped_to (hello table ctx) = Some f.
Proof.
  intros Hop. split; [done |]. split; [exact fill_default_new |].
  split; [unfold setup; by rewrite fill_default_new |].
  unfold max_entries in Hop. split.
  - rewrite hello_in_bounds by (rewrite length_replicate; lia).
    rewrite lookup_replicate_2 by lia. done.
  - eexists.
    assert (∃ f, mjoin ((<[226 := Some timer_fn]> (<[225 := Some timer_fn]>
               (<[224 := Some timer_fn]> (<[223 := Some timer_fn]>
               (<[222 := Some timer_fn]> (<[59 := Some exec_fn]>
               (replicate max_entries (Some ignore_fn))))))))
               !! Z.to_nat (to_s32 (args ctx 1))) = Some f) as [f Hf].
    { repeat (rewrite list_lookup_insert;
              case_decide; [by eexists |]).
      rewrite lookup_replicate_2 by (unfold max_entries; lia). by eexists. }
    exists f. split; [exact setup_eq |]. split; [done |].
    rewrite hello_in_bounds
      by (rewrite !length_insert, length_replicate; unfold max_entries; lia).
    by rewrite Hf.
Qed.

Lemma C5_witness :
  length prog_array_new = 500
  ∧ fill_default prog_array_new = Ok (replicate 500 (Some ignore_fn))
  ∧ setup = install (replicate 500 (Some ignore_fn))
  ∧ hello (replicate 500 (Some ignore_fn)) (sys_enter 59)
    = Outcome [59] (Some ignore_fn) [] 0%Z
  ∧ ∃ table f, setup = Ok table ∧ length table = 500
               ∧ jumped_to (hello table (sys_enter 59)) = Some f.
Proof.
  apply (C5_default_before_override (sys_enter 59)).
  vm_compute. split; [discriminate | reflexivity].
Defined.

(** C6.  On the table the script builds, an event with opcode 59 jumps to
    [hello_exec], which logs "Executing a program"; one with opcode 222
    jumps to [hello_timer], which logs "Creating a timer" (223 to 225:
    "Some other timer operation", 226: "Deleting a timer"); every other
    in-bounds opcode jumps to [ignore_opcode], which logs nothing and
    returns 0. *)
Theorem C6_dispatch_routing (ctx : bpf_raw_tracepoint_args) (opcode : Z) :
  to_s32 (args ctx 1) = opcode →
  (0 ≤ opcode < Z.of_nat max_entries)%Z →
  ∃ table, setup = Ok table ∧
    hello table ctx =
      if decide (opcode = 59%Z) then
        Outcome [59] (Some exec_fn)
          (bpf_trace_printk "Executing a program" []) 0%Z
      else if decide (opcode = 222%Z) then
        Outcome [222] (Some timer_fn)
          (bpf_trace_printk "Creating a timer" []) 0%Z
      else if decide (opcode = 226%Z) then
        Outcome [226] (Some timer_fn)
          (bpf_trace_printk "Deleting a timer" []) 0%Z
      else if decide (223 ≤ opcode ≤ 225)%Z then
        Outcome [Z.to_nat opcode] (Some timer_fn)
          (bpf_trace_printk "Some other timer operation" []) 0%Z
      else
        Outcome [Z.to_nat opcode] (Some ignore_fn) [] 0%Z.
Proof.
  intros Hctx Hop. unfold max_entries in Hop.
  eexists. split; [exact setup_eq |].
  rewrite hello_in_bounds
    by (rewrite !length_insert, length_replicate; unfold max_entries; lia).
  unfold run, hello_exec, hello_timer, ignore_opcode. rewrite Hctx.
  destruct (decide (opcode = 59%Z)) as [-> | H59]; [done |].
  destruct (decide (opcode = 222%Z)) as [-> | H222]; [done |].
  destruct (decide (opcode = 226%Z)) as [-> | H226]; [done |].
  destruct (decide (223 ≤ opcode ≤ 225)%Z) as [Htimer | Hother].
  - assert (opcode = 223 ∨ opcode = 224 ∨ opcode = 225)%Z
      as [-> | [-> | ->]] by lia; done.
  - rewrite !list_lookup_insert_ne by lia.
    rewrite lookup_replicate_2 by (unfold max_entries; lia). done.
Qed.

Lemma C6_witness :
  (∃ table, setup = Ok table ∧
     hello table (sys_enter 59)
     = Outcome [59] (Some exec_fn)
         (bpf_trace_printk "Executing a program" []) 0%Z)
  ∧ (∃ table, setup = Ok table ∧
       hello table (sys_enter 222)
       = Outcome [222] (Some timer_fn)
           (bpf_trace_printk "Creating a timer" []) 0%Z)
  ∧ (∃ table, setup = Ok table ∧
       hello table (sys_enter 7) = Outcome [7] (Some ignore_fn) [] 0%Z).
Proof.
  split; [| split].
  - apply (C6_dispatch_routing (sys_enter 59) 59); [reflexivity | ].
    vm_compute. split; [discriminate | reflexivity].
  - apply (C6_dispatch_routing (sys_enter 222) 222); [reflexivity | ].
    vm_compute. split; [discriminate | reflexivity].
  - apply (C6_dispatch_routing (sys_enter 7) 7); [reflexivity | ].
    vm_compute. split; [discriminate | reflexivity].
Defined.

(** C7.  Whatever the 500-slot table holds, the dispatcher reads a slot
    only inside the table and returns 0.  The tail call fails exactly when
    the dispatcher logs "Another syscall: %d" with the opcode, which no
    handler logs.  For an opcode inside the table the slot of that opcode
    is read and its content decides; for any other opcode (500 and above,
    or negative) no slot is read and control falls through to the
    diagnostic. *)
Theorem C7_fallthrough
    (syscall : list (option fn)) (ctx : bpf_raw_tracepoint_args) :
  length syscall = max_entries →
  Forall (λ i, i < length syscall) (slots_read (hello syscall ctx))
  ∧ ret (hello syscall ctx) = 0%Z
  ∧ (jumped_to (hello syscall ctx) = None
     ↔ trace (hello syscall ctx)
       = bpf_trace_printk "Another syscall: %d"
           [ArgInt (to_s32 (args ctx 1))])
  ∧ (if decide (0 ≤ to_s32 (args ctx 1) < 500)%Z
     then slots_read (hello syscall ctx) = [Z.to_nat (to_s32 (args ctx 1))]
          ∧ jumped_to (hello syscall ctx)
            = mjoin (syscall !! Z.to_nat (to_s32 (args ctx 1)))
     else hello syscall ctx
          = Outcome [] None
              (bpf_trace_printk "Another syscall: %d"
                 [ArgInt (to_s32 (args ctx 1))]) 0%Z).
Proof.
  intros Hlen.
  destruct (decide (0 ≤ to_s32 (args ctx 1) < 500)%Z) as [Hin | Hout].
  - rewrite hello_in_bounds by (rewrite Hlen; unfold max_entries; lia).
    destruct (mjoin (syscall !! Z.to_nat (to_s32 (args ctx 1))))
      as [f |] eqn:Hslot; cbn [slots_read ret jumped_to trace].
    + split; [| split; [| split]].
      * apply Forall_singleton. rewrite Hlen. unfold max_entries. lia.
      * by destruct f.
      * split; [done |].
        destruct f; unfold run, hello_exec, hello_timer, ignore_opcode,
          bpf_trace_printk; cbn [fst]; repeat case_decide; discriminate.
      * done.
    + split; [| split; [| split]]; try done.
      apply Forall_singleton. rewrite Hlen. unfold max_entries. lia.
  - rewrite hello_out_of_bounds
      by (rewrite ?Hlen; unfold max_entries; done || lia).
    cbn [slots_read ret jumped_to trace]. split; [apply Forall_nil_2 |].
    done.
Qed.

Lemma C7_witness :
  Forall (λ i, i < length prog_array_new)
    (slots_read (hello prog_array_new (sys_enter 500)))
  ∧ ret (hello prog_array_new (sys_enter 500)) = 0%Z
  ∧ (jumped_to (hello prog_array_new (sys_enter 500)) = None
     ↔ trace (hello prog_array_new (sys_enter 500))
       = bpf_trace_printk "Another syscall: %d" [ArgInt 500])
  ∧ hello prog_array_new (sys_enter 500)
    = Outcome [] None
        (bpf_trace_printk "Another syscall: %d" [ArgInt 500]) 0%Z.
Proof.
  apply (C7_fallthrough prog_array_new (sys_enter 500)). reflexivity.
Defined.

End Dispatch.

(** ** The per-UID counter *)

Section Counter.
Import HelloMap.

Lemma count_key t :
  to_u32 (Z.land (bpf_get_current_uid_gid t) 0xFFFFFFFF) = euid t.
Proof.
  unfold bpf_get_current_uid_gid, euid.
  by rewrite land_low32, to_u32_idem, to_u32_to_u64.
Qed.

Lemma count_up_present max_entries (counter_table : gmap Z Z) t v :
  counter_table !! euid t = Some v →
  count_up max_entries counter_table t
  = (<[euid t := to_u64 (v + 1)]> counter_table, 0%Z).
Proof.
  intros Hv. unfold count_up, lookup_or_init.
  rewrite count_key, Hv. done.
Qed.

Lemma count_up_new max_entries (counter_table : gmap Z Z) t :
  counter_table !! euid t = None →
  size counter_table < max_entries →
  count_up max_entries counter_table t
  = (<[euid t := 1%Z]> (<[euid t := 0%Z]> counter_table), 0%Z).
Proof.
  intros Hv Hsize. unfold count_up, lookup_or_init, insert_noexist.
  rewrite count_key, Hv.
  rewrite decide_False by (by intros [? ?]).
  rewrite decide_False by lia.
  rewrite lookup_insert_eq. done.
Qed.

Lemma count_up_full max_entries (counter_table : gmap Z Z) t :
  counter_table !! euid t = None →
  ¬ size counter_table < max_entries →
  count_up max_entries counter_table t = (counter_table, 0%Z).
Proof.
  intros Hv Hsize. unfold count_up, lookup_or_init, insert_noexist.
  rewrite count_key, Hv.
  rewrite decide_False by (by intros [? ?]).
  rewrite decide_True by lia. done.
Qed.

Lemma full_table_size : size full_table = BPF_HASH_entries.
Proof. vm_compute. reflexivity. Qed.

Lemma full_table_fresh : full_table !! 20000%Z = None.
Proof. vm_compute. reflexivity. Qed.

(** C9 as stated fails when the table is full: with 10240 other UIDs
    counted, the first event of UID 20000 creates no entry and counts
    nothing. *)
Lemma C9_counterexample :
  euid (sample_task 20000 []) = 20000%Z
  ∧ full_table !! 20000%Z = None
  ∧ size full_table = BPF_HASH_entries
  ∧ count_up BPF_HASH_entries full_table (sample_task 20000 [])
    = (full_table, 0%Z)
  ∧ (count_up BPF_HASH_entries full_table (sample_task 20000 [])).1
      !! 20000%Z ≠ Some 1%Z.
Proof.
  assert (¬ size full_table < BPF_HASH_entries) as Hfull.
  { rewrite full_table_size. apply Nat.lt_irrefl. }
  pose proof (count_up_full BPF_HASH_entries full_table
                (sample_task 20000 []) full_table_fresh Hfull) as Hc.
  split; [reflexivity |].
  split; [exact full_table_fresh |].
  split; [exact full_table_size |].
  split; [exact Hc |].
  rewrite Hc. cbn [fst]. rewrite full_table_fresh. discriminate.
Qed.

(** C9, amended.  One event leaves the counters of all other keys as they
    were and returns 0.  When the current UID has an entry, its counter
    becomes the old value plus one (in 64-bit arithmetic).  When it has
    none and the table has room, an entry is created at zero and counted
    to 1.  When it has none and the table is full, the table is left as it
    was.  Both tracepoint probes are [count_up]. *)
Theorem C9_count_up_frame
    (max_entries : nat) (counter_table : gmap Z Z) (t : task) (k : Z) :
  k ≠ euid t →
  (count_up max_entries counter_table t).1 !! k = counter_table !! k
  ∧ (count_up max_entries counter_table t).2 = 0%Z
  ∧ match counter_table !! euid t with
    | Some v =>
        (count_up max_entries counter_table t).1 !! euid t
        = Some (to_u64 (v + 1))
    | None =>
        if decide (size counter_table < max_entries)
        then (count_up max_entries counter_table t).1 !! euid t = Some 1%Z
        else (count_up max_entries counter_table t).1 = counter_table
    end
  ∧ sys_enter_execve max_entries counter_table t
    = count_up max_entries counter_table t
  ∧ sys_enter_execveat max_entries counter_table t
    = count_up max_entries counter_table t.
Proof.
  intros Hk. unfold sys_enter_execve, sys_enter_execveat.
  destruct (counter_table !! euid t) as [v |] eqn:Hv.
  - rewrite (count_up_present _ _ _ _ Hv). cbn [fst snd].
    rewrite lookup_insert_ne by done. rewrite lookup_insert_eq. done.
  - destruct (decide (size counter_table < max_entries)) as [Hroom | Hfull].
    + rewrite (count_up_new _ _ _ Hv Hroom). cbn [fst snd].
      rewrite !lookup_insert_ne by done. rewrite lookup_insert_eq. done.
    + rewrite (count_up_full _ _ _ Hv Hfull). done.
Qed.

Lemma C9_witness :
  (count_up BPF_HASH_entries {[ 1000%Z := 7%Z ]} (sample_task 0 [])).1
    !! 1000%Z = Some 7%Z
  ∧ (count_up BPF_HASH_entries {[ 1000%Z := 7%Z ]} (sample_task 0 [])).2
    = 0%Z
  ∧ (count_up BPF_HASH_entries {[ 1000%Z := 7%Z ]} (sample_task 0 [])).1
      !! 0%Z = Some 1%Z
  ∧ sys_enter_execve BPF_HASH_entries {[ 1000%Z := 7%Z ]} (sample_task 0 [])
    = count_up BPF_HASH_entries {[ 1000%Z := 7%Z ]} (sample_task 0 [])
  ∧ sys_enter_execveat BPF_HASH_entries {[ 1000%Z := 7%Z ]}
      (sample_task 0 [])
    = count_up BPF_HASH_entries {[ 1000%Z := 7%Z ]} (sample_task 0 []).
Proof.
  pose proof (C9_count_up_frame BPF_HASH_entries {[ 1000%Z := 7%Z ]}
                (sample_task 0 []) 1000%Z ltac:(discriminate)) as H.
  vm_compute in H. vm_compute. exact H.
Defined.

End Counter.

(** ** The LSM probe *)

Section FilePermission.
Import Lsm.

Lemma comm_into_stack (stack : nat → byte) t :
  bpf_get_current_comm (stack <$> seq 0 256) 256 t
  = Some (task_comm t ++ zeros (256 - length (task_comm t))).
Proof.
  pose proof (length_task_comm t) as Hlen.
  unfold bpf_get_current_comm.
  assert (length (stack <$> seq 0 256) = 256) as Hdst
    by (by rewrite length_fmap, length_seq).
  rewrite decide_True by lia.
  rewrite take_ge by lia.
  rewrite drop_ge by lia.
  by rewrite app_nil_r.
Qed.

Lemma c_str_comm_256 t :
  c_str (task_comm t ++ zeros (256 - length (task_comm t))) = task_comm t.
Proof.
  pose proof (length_task_comm t) as Hlen.
  destruct (256 - length (task_comm t)) as [| k] eqn:E; [lia |].
  apply c_str_app_nul, task_comm_no_nul.
Qed.

(** C10.  The probe returns 0 on every invocation, whatever the task,
    the file, the mask and the earlier content of its stack.  It logs
    nothing unless the UID of the task is 1001; for UID 1001 it logs the
    file name with the mask, and the task name. *)
Theorem C10_lsm_never_denies
    (stack : nat → byte) (t : task) (f : file) (mask : Z) :
  security_file_permission stack t f mask
  = Some (if decide (euid t = 1001%Z)
          then [Printk "File %s mask %x"
                  [ArgStr (c_str (d_iname f)); ArgInt (to_s32 mask)];
                Printk "     opened by: %s" [ArgStr (task_comm t)]]
          else [],
          0%Z)
  ∧ ∀ calls : list ((nat → byte) * task * file * Z),
      Forall (λ '(s, t', f', m),
                snd <$> security_file_permission s t' f' m = Some 0%Z)
        calls.
Proof.
  assert (∀ s t' f' m,
    security_file_permission s t' f' m
    = Some (if decide (euid t' = 1001%Z)
            then [Printk "File %s mask %x"
                    [ArgStr (c_str (d_iname f')); ArgInt (to_s32 m)];
                  Printk "     opened by: %s" [ArgStr (task_comm t')]]
            else [],
            0%Z)) as Hone.
  { intros s t' f' m. unfold security_file_permission.
    rewrite comm_into_stack. cbn [mbind option_bind].
    rewrite count_key, c_str_comm_256.
    destruct (decide (euid t' = 1001%Z)) as [Hid | Hid].
    - rewrite decide_False by (intros H; by apply H). done.
    - rewrite decide_True by done. done. }
  split; [apply Hone |].
  intros calls. apply Forall_forall. intros [[[s t'] f'] m] _.
  by rewrite Hone.
Qed.

(** One call for a task of UID 1001 named [cat], reading [passwd]. *)
Example lsm_sample :
  security_file_permission spill
    (sample_task 1001 (String.list_byte_of_string "cat")) passwd 4
  = Some ([Printk "File %s mask %x"
             [ArgStr (String.list_byte_of_string "passwd"); ArgInt 4];
           Printk "     opened by: %s"
             [ArgStr (String.list_byte_of_string "cat")]],
          0%Z).
Proof. reflexivity. Qed.

End FilePermission.

(** * Further properties of the scripts *)

(** ** The record codec, end to end *)

Lemma to_s32_small z : (- 2 ^ 31 ≤ z < 2 ^ 31)%Z → to_s32 z = z.
Proof.
  intros Hz. unfold to_s32. rewrite Z.mod_small by lia. lia.
Qed.

Lemma length_c_str buf : length (c_str buf) ≤ length buf.
Proof.
  induction buf as [| b rest IH]; simpl; [lia |].
  destruct (Byte.eqb b x00); simpl; lia.
Qed.

(** X1.  A record whose integers fit 32 signed bits and whose arrays have
    the declared sizes travels as a block of 36 bytes, and decoding the
    block gives the integers back unchanged and the two arrays up to their
    first NUL. *)
Theorem X1_codec_round_trip (d : data_t) :
  (- 2 ^ 31 ≤ pid d < 2 ^ 31)%Z →
  (- 2 ^ 31 ≤ uid d < 2 ^ 31)%Z →
  length (command d) = sizeof_command →
  length (message d) = sizeof_message →
  length (data_bytes d) = 36
  ∧ event (data_bytes d)
    = {| ev_pid := pid d; ev_uid := uid d;
         ev_command := c_str (command d);
         ev_message := c_str (message d) |}.
Proof.
  intros Hp Hu Hc Hm. split.
  - unfold data_bytes. rewrite !length_app, !length_le32, Hc, Hm. done.
  - rewrite event_data_bytes by done.
    by rewrite (to_s32_small _ Hp), (to_s32_small _ Hu).
Qed.

Lemma X1_witness :
  length sample_block = 36
  ∧ event sample_block
    = {| ev_pid := 4321; ev_uid := 0;
         ev_command := String.list_byte_of_string "bash";
         ev_message := String.list_byte_of_string "Hey root!" |}.
Proof.
  apply (X1_codec_round_trip
           {| pid := 4321; uid := 0;
              command := char_array sizeof_command "bash";
              message := char_array sizeof_message "Hey root!" |});
    try reflexivity; simpl; lia.
Defined.

(** X2.  Whatever block arrives, long or short, the decoded command holds
    at most 16 bytes and the decoded message at most 12, taken from the
    bytes 8..23 and 24..35 of the block, and neither holds a NUL. *)
Theorem X2_decode_bounds (raw : list byte) :
  length (ev_command (event raw)) ≤ 16
  ∧ length (ev_message (event raw)) ≤ 12
  ∧ ev_command (event raw) `prefix_of` drop 8 raw
  ∧ ev_message (event raw) `prefix_of` drop 24 raw
  ∧ (x00 ∉ ev_command (event raw))
  ∧ (x00 ∉ ev_message (event raw)).
Proof.
  assert (∀ buf, c_str buf `prefix_of` buf) as Hpre.
  { induction buf as [| b rest IH]; simpl; [done |].
    destruct (Byte.eqb b x00); [apply prefix_nil | by apply prefix_cons]. }
  unfold event. cbn [ev_command ev_message].
  split; [| split; [| split; [| split; [| split]]]].
  - etrans; [apply length_c_str |]. rewrite length_take.
    unfold sizeof_command. lia.
  - etrans; [apply length_c_str |]. rewrite length_take.
    unfold sizeof_message. lia.
  - etrans; [apply Hpre |]. apply prefix_take.
  - etrans; [apply Hpre |]. apply prefix_take.
  - apply c_str_no_nul.
  - apply c_str_no_nul.
Qed.

Lemma euid_range t : (0 ≤ euid t < 2 ^ 32)%Z.
Proof. unfold euid, to_u32. apply Z.mod_pos_bound. lia. Qed.

Lemma to_s32_of_u32 z :
  (0 ≤ z < 2 ^ 32)%Z →
  to_s32 z = if decide (z < 2 ^ 31)%Z then z else (z - 2 ^ 32)%Z.
Proof.
  intros Hz. unfold to_s32. case_decide.
  - rewrite Z.mod_small by lia. lia.
  - symmetry. rewrite <- Z.add_move_r.
    apply (Z.mod_unique_pos _ _ 1); lia.
Qed.

Lemma tgid_of_pid_tgid tgid tid :
  (0 ≤ tgid < 2 ^ 31)%Z → (0 ≤ tid < 2 ^ 32)%Z →
  to_s32 (to_u64 (tgid * 2 ^ 32 + tid) ≫ 32) = tgid.
Proof.
  intros Hg Ht. unfold to_u64. rewrite Z.mod_small by lia.
  rewrite Z.shiftr_div_pow2 by lia.
  replace ((tgid * 2 ^ 32 + tid) `div` 2 ^ 32)%Z with tgid.
  - apply to_s32_small. lia.
  - apply (Z.div_unique_pos _ _ _ tid); lia.
Qed.

Lemma perf_config_ge config :
  config_wf PerfBuf.sizeof_user_msg config →
  map_Forall (λ _ v, sizeof_message ≤ length v) config.
Proof.
  apply config_wf_ge. unfold PerfBuf.sizeof_user_msg, sizeof_message. lia.
Qed.

Lemma ring_config_ge config :
  config_wf RingBuf.sizeof_user_msg config →
  map_Forall (λ _ v, sizeof_message ≤ length v) config.
Proof.
  apply config_wf_ge. unfold RingBuf.sizeof_user_msg, sizeof_message. lia.
Qed.

Lemma length_hello_message (config : gmap Z (list byte)) k :
  map_Forall (λ _ v, sizeof_message ≤ length v) config →
  length (take sizeof_message (default hello_world (config !! k)))
  = sizeof_message.
Proof.
  intros Hge. rewrite length_take.
  destruct (config !! k) as [v |] eqn:E; cbn [from_option id].
  - pose proof (Hge _ _ E) as Hv. cbn beta in Hv. lia.
  - done.
Qed.

(** What the consumer decodes from the record either chapter-4 probe
    submits. *)
Lemma hello_event stack config t :
  map_Forall (λ _ v, sizeof_message ≤ length v) config →
  ∃ d, PerfBuf.hello stack config t = Some (d, 0%Z)
       ∧ event (data_bytes d)
         = {| ev_pid := to_s32 (bpf_get_current_pid_tgid t ≫ 32);
              ev_uid := to_s32 (euid t);
              ev_command := task_comm t;
              ev_message :=
                c_str (take sizeof_message
                         (default hello_world (config !! euid t))) |}.
Proof.
  intros Hge. eexists. split; [exact (perf_hello_eq stack config t Hge) |].
  rewrite event_data_bytes; cbn [pid uid command message].
  - by rewrite !to_s32_to_s32, c_str_padded_comm.
  - apply length_padded_comm.
  - by apply length_hello_message.
Qed.

(** X3.  In the perf-buffer script the decoded [pid] is the thread-group
    id, the upper half of the pid/tgid pair, whatever the thread id in the
    lower half; the decoded command is the task name up to its first NUL,
    cut to 15 bytes. *)
Theorem X3_pid_and_command
    (stack : data_t) (config : gmap Z (list byte)) (t : task)
    (tgid tid : Z) :
  config_wf PerfBuf.sizeof_user_msg config →
  pid_tgid t = (tgid * 2 ^ 32 + tid)%Z →
  (0 ≤ tgid < 2 ^ 31)%Z → (0 ≤ tid < 2 ^ 32)%Z →
  ∃ d, PerfBuf.hello stack config t = Some (d, 0%Z)
       ∧ ev_pid (event (data_bytes d)) = tgid
       ∧ ev_command (event (data_bytes d)) = take 15 (c_str (comm t)).
Proof.
  intros Hwf Hpid Hg Ht.
  destruct (hello_event stack config t (perf_config_ge _ Hwf))
    as (d & Hd & He).
  exists d. split; [exact Hd |]. rewrite He. cbn [ev_pid ev_command].
  split; [| done].
  unfold bpf_get_current_pid_tgid. rewrite Hpid.
  by apply tgid_of_pid_tgid.
Qed.

Lemma X3_witness :
  ∃ d, PerfBuf.hello data_zero ∅ (sample_task 1000 cut_name)
       = Some (d, 0%Z)
       ∧ ev_pid (event (data_bytes d)) = 4321%Z
       ∧ ev_command (event (data_bytes d))
         = String.list_byte_of_string "aaaaaaaaaaaaaa" ++ [xc3].
Proof.
  apply (X3_pid_and_command data_zero ∅ (sample_task 1000 cut_name)
           4321 4321).
  - apply map_Forall_empty.
  - reflexivity.
  - lia.
  - lia.
Defined.

(** X4.  In the perf-buffer script the map is looked up under the UID as
    an unsigned 32-bit number, while the decoded [uid] is the same 32 bits
    read as signed: a UID of 2^31 or more selects its own entry and is
    shown as the UID minus 2^32. *)
Theorem X4_uid_key_and_display
    (stack : data_t) (config : gmap Z (list byte)) (t : task) :
  config_wf PerfBuf.sizeof_user_msg config →
  ∃ d, PerfBuf.hello stack config t = Some (d, 0%Z)
       ∧ ev_uid (event (data_bytes d))
         = (if decide (euid t < 2 ^ 31)%Z then euid t
            else (euid t - 2 ^ 32)%Z)
       ∧ message d
         = take sizeof_message (default hello_world (config !! euid t)).
Proof.
  intros Hwf.
  pose proof (perf_hello_eq stack config t (perf_config_ge _ Hwf)) as Hd.
  eexists. split; [exact Hd |].
  rewrite event_data_bytes; cbn [pid uid command message ev_uid].
  - split; [| done].
    rewrite to_s32_to_s32. apply to_s32_of_u32, euid_range.
  - apply length_padded_comm.
  - apply length_hello_message. by apply perf_config_ge.
Qed.

Lemma X4_witness :
  ∃ d, PerfBuf.hello data_zero
         (config_setitem PerfBuf.sizeof_user_msg ∅ (-2)
            (create_string_buffer "nobody") spill)
         (sample_task 4294967294 []) = Some (d, 0%Z)
       ∧ ev_uid (event (data_bytes d)) = (-2)%Z
       ∧ message d
         = String.list_byte_of_string "nobody" ++ [x00; x41; x41; x41; x41; x41].
Proof.
  destruct (X4_uid_key_and_display data_zero
              (config_setitem PerfBuf.sizeof_user_msg ∅ (-2)
                 (create_string_buffer "nobody") spill)
              (sample_task 4294967294 [])) as (d & Hd & Hu & Hm).
  { apply config_setitem_wf, map_Forall_empty. }
  exists d. split; [exact Hd |]. split; [exact Hu | exact Hm].
Defined.

(** ** Seeding the configuration map *)





(** X6.  A probe that finds no entry for the UID, or an entry with the
    same first twelve bytes, submits the same record in both chapter-4
    scripts: the thirteenth byte of a perf-buffer value never reaches an
    event. *)
Theorem X6_same_record
    (stack stack' : data_t) (perf_config ring_config : gmap Z (list byte))
    (t : task) :
  config_wf PerfBuf.sizeof_user_msg perf_config →
  config_wf RingBuf.sizeof_user_msg ring_config →
  take 12 <$> perf_config !! euid t = take 12 <$> ring_config !! euid t →
  PerfBuf.hello stack perf_config t = RingBuf.hello stack' ring_config t.
Proof.
  intros Hp Hr Hsame.
  rewrite (perf_hello_eq stack perf_config t (perf_config_ge _ Hp)).
  rewrite (ring_hello_eq stack' ring_config t (ring_config_ge _ Hr)).
  do 3 f_equal.
  destruct (perf_config !! euid t) as [v |],
           (ring_config !! euid t) as [w |]; simplify_eq/=; done.
Qed.

Lemma X6_witness :
  PerfBuf.hello data_zero (PerfBuf.seeded spill spill) (sample_task 0 [])
  = RingBuf.hello data_zero (RingBuf.seeded spill) (sample_task 0 []).
Proof.
  apply (X6_same_record data_zero data_zero (PerfBuf.seeded spill spill)
           (RingBuf.seeded spill) (sample_task 0 [])).
  - apply perf_seeded_wf.
  - apply ring_seeded_wf.
  - reflexivity.
Defined.

(** ** The scripts as they run *)

Lemma buffer_hello_perf stack t :
  Buffer.hello stack t = PerfBuf.hello stack ∅ t.
Proof.
  unfold Buffer.hello, PerfBuf.hello. by rewrite lookup_empty.
Qed.

Lemma seeded_perf_lookup beyond0 beyond501 k :
  PerfBuf.seeded beyond0 beyond501 !! k =
    if decide (k = 501%Z)
    then Some (map_value PerfBuf.sizeof_user_msg
                 (create_string_buffer "Hi user 501!") beyond501)
    else if decide (k = 0%Z)
         then Some (map_value PerfBuf.sizeof_user_msg
                      (create_string_buffer "Hey root!") beyond0)
         else None.
Proof.
  unfold PerfBuf.seeded, config_setitem.
  change (to_u32 501) with 501%Z. change (to_u32 0) with 0%Z.
  rewrite lookup_insert. case_decide; [by rewrite decide_True |].
  rewrite decide_False by done.
  rewrite lookup_insert. case_decide; [by rewrite decide_True |].
  rewrite decide_False by done. apply lookup_empty.
Qed.

Lemma seeded_ring_lookup beyond0 k :
  RingBuf.seeded beyond0 !! k =
    if decide (k = 0%Z)
    then Some (map_value RingBuf.sizeof_user_msg
                 (create_string_buffer "Hey root!") beyond0)
    else None.
Proof.
  unfold RingBuf.seeded, config_setitem. change (to_u32 0) with 0%Z.
  rewrite lookup_insert. case_decide; [by rewrite decide_True |].
  rewrite decide_False by done. apply lookup_empty.
Qed.

(** X7.  With the entries the two chapter-4 scripts store, the decoded
    message of an event depends on the UID alone.  Perf-buffer script:
    "Hey root!" for UID 0, "Hi user 501!" for UID 501, "Hello World" for
    every other UID.  Ring-buffer script: "Hey root!" for UID 0, "Hello
    World" for every other UID.  The memory behind the string buffers
    plays no part. *)
Theorem X7_seeded_messages
    (stack : data_t) (beyond0 beyond501 : nat → byte) (t : task) :
  (∃ d, PerfBuf.hello stack (PerfBuf.seeded beyond0 beyond501) t
        = Some (d, 0%Z)
        ∧ ev_message (event (data_bytes d))
          = String.list_byte_of_string
              (if decide (euid t = 0%Z) then "Hey root!"
               else if decide (euid t = 501%Z) then "Hi user 501!"
               else "Hello World"))
  ∧ (∃ d, RingBuf.hello stack (RingBuf.seeded beyond0) t = Some (d, 0%Z)
          ∧ ev_message (event (data_bytes d))
            = String.list_byte_of_string
                (if decide (euid t = 0%Z) then "Hey root!"
                 else "Hello World")).
Proof.
  split.
  - destruct (hello_event stack (PerfBuf.seeded beyond0 beyond501) t)
      as (d & Hd & He).
    { apply perf_config_ge, perf_seeded_wf. }
    exists d. split; [exact Hd |]. rewrite He. cbn [ev_message].
    rewrite seeded_perf_lookup.
    destruct (decide (euid t = 501%Z)) as [E | E].
    + rewrite E. done.
    + destruct (decide (euid t = 0%Z)) as [E0 | E0]; done.
  - destruct (hello_event stack (RingBuf.seeded beyond0) t)
      as (d & Hd & He).
    { apply ring_config_ge, ring_seeded_wf. }
    exists d. split; [exact Hd |]. rewrite He. cbn [ev_message].
    rewrite seeded_ring_lookup.
    destruct (decide (euid t = 0%Z)) as [E0 | E0]; done.
Qed.

(** X8.  In chapter02/hello-buffer.py every event of a task whose name is
    ASCII is displayed as the line [pid uid name Hello World]: the decimal
    thread-group id and UID (as signed 32-bit numbers), the task name up
    to 15 bytes, and the fixed text. *)
Theorem X8_buffer_line (stack : data_t) (t : task) :
  Forall (λ b, (Byte.to_N b < 0x80)%N) (task_comm t) →
  ∃ d, Buffer.hello stack t = Some (d, 0%Z)
       ∧ print_event (data_bytes d)
         = Ok (str_of_int (to_s32 (bpf_get_current_pid_tgid t ≫ 32))
               ++ text " " ++ str_of_int (to_s32 (euid t)) ++ text " "
               ++ (Byte.to_N <$> task_comm t) ++ text " "
               ++ text "Hello World" ++ [10%N]).
Proof.
  intros Hascii.
  destruct (hello_event stack ∅ t (map_Forall_empty _)) as (d & Hd & He).
  exists d. split; [by rewrite buffer_hello_perf |].
  unfold print_event. rewrite He. cbn [ev_pid ev_uid ev_command ev_message].
  unfold decode. rewrite (utf8_decode_ascii _ Hascii).
  rewrite lookup_empty. done.
Qed.

Lemma X8_witness :
  ∃ d, Buffer.hello data_zero
         (sample_task 1000 (String.list_byte_of_string "bash"))
       = Some (d, 0%Z)
       ∧ print_event (data_bytes d)
         = Ok (text "4321 1000 bash Hello World" ++ [10%N]).
Proof.
  apply (X8_buffer_line data_zero
           (sample_task 1000 (String.list_byte_of_string "bash"))).
  vm_compute. repeat constructor.
Defined.

(** ** The program array *)

Section ProgArray.
Import TailCall.

Lemma setitem_small (table : list (option fn)) (key : Z) (leaf : fn) :
  (0 ≤ key < 2 ^ 31)%Z →
  setitem table key leaf =
    if decide (key < Z.of_nat (length table))%Z
    then Ok (<[Z.to_nat key := Some leaf]> table)
    else Raise UpdateError.
Proof.
  intros Hk. unfold setitem.
  rewrite to_s32_small by lia. rewrite to_u32_small by lia. done.
Qed.

Lemma fill_default_from (table : list (option fn)) :
  (Z.of_nat (length table) ≤ 2 ^ 31)%Z →
  ∀ m j,
    j + m = length table →
    foldl (λ acc i, and_then acc (λ t, setitem t (Z.of_nat i) ignore_fn))
      (Ok (replicate j (Some ignore_fn) ++ drop j table)) (seq j m)
    = Ok (replicate (length table) (Some ignore_fn)).
Proof.
  intros Hlen m. induction m as [| m IH]; intros j Hj.
  - simpl. rewrite drop_ge by lia. rewrite app_nil_r.
    by replace j with (length table) by lia.
  - cbn [seq foldl and_then].
    rewrite setitem_small by lia.
    rewrite decide_True
      by (rewrite length_app, length_replicate, length_drop; lia).
    rewrite Nat2Z.id.
    destruct (lookup_lt_is_Some_2 table j ltac:(lia)) as [y Hy].
    rewrite (drop_S _ _ _ Hy).
    rewrite insert_app_r_alt by (rewrite length_replicate; lia).
    rewrite length_replicate, Nat.sub_diag.
    change (<[0 := Some ignore_fn]> (y :: drop (S j) table))
      with (Some ignore_fn :: drop (S j) table).
    replace (replicate j (Some ignore_fn)
             ++ Some ignore_fn :: drop (S j) table)
      with (replicate (S j) (Some ignore_fn) ++ drop (S j) table).
    + apply IH. lia.
    + rewrite replicate_S_end, <- app_assoc. done.
Qed.

(** X9.  Whatever a program array holds when the loop starts, the loop
    ends without an exception and leaves [ignore_fn] in every slot.  The
    array may have any size up to 2^31 slots, the range of [ct.c_int]. *)
Theorem X9_fill_default_resets (table : list (option fn)) :
  (Z.of_nat (length table) ≤ 2 ^ 31)%Z →
  fill_default table = Ok (replicate (length table) (Some ignore_fn)).
Proof.
  intros Hlen. unfold fill_default.
  apply (fill_default_from table Hlen (length table) 0). lia.
Qed.

Lemma X9_witness :
  fill_default [None; Some exec_fn; Some timer_fn]
  = Ok [Some ignore_fn; Some ignore_fn; Some ignore_fn].
Proof.
  apply (X9_fill_default_resets [None; Some exec_fn; Some timer_fn]).
  simpl. lia.
Defined.

(** X10.  On any program array with more than 226 slots the six
    assignments succeed, keep the size of the array, put [exec_fn] in
    slot 59 and [timer_fn] in the slots 222 to 226, and leave every other
    slot as it was. *)
Theorem X10_install_frame (table : list (option fn)) :
  226 < length table →
  ∃ table',
    install table = Ok table'
    ∧ length table' = length table
    ∧ ∀ i, table' !! i =
        if decide (i = 59) then Some (Some exec_fn)
        else if decide (222 ≤ i ≤ 226) then Some (Some timer_fn)
        else table !! i.
Proof.
  intros Hlen. unfold install.
  repeat (rewrite setitem_small by lia;
          rewrite decide_True by (rewrite ?length_insert; lia);
          cbn [and_then]).
  eexists. split; [done |]. split; [by rewrite !length_insert |].
  intros i.
  destruct (decide (i = 59)) as [-> | H59].
  { rewrite !list_lookup_insert_ne by lia.
    apply list_lookup_insert_eq. lia. }
  destruct (decide (222 ≤ i ≤ 226)) as [Htimer | Hother].
  - assert (i = 222 ∨ i = 223 ∨ i = 224 ∨ i = 225 ∨ i = 226)
      as [-> | [-> | [-> | [-> | ->]]]] by lia;
      rewrite ?list_lookup_insert_ne by lia;
      apply list_lookup_insert_eq; rewrite ?length_insert; lia.
  - by rewrite !list_lookup_insert_ne by lia.
Qed.

Lemma X10_witness :
  ∃ table',
    install prog_array_new = Ok table'
    ∧ length table' = length prog_array_new
    ∧ ∀ i, table' !! i =
        if decide (i = 59) then Some (Some exec_fn)
        else if decide (222 ≤ i ≤ 226) then Some (Some timer_fn)
        else prog_array_new !! i.
Proof.
  apply (X10_install_frame prog_array_new). vm_compute. lia.
Defined.

(** X11.  On a program array with 226 slots or fewer the assignments do
    not complete: one of them is refused and the script stops with the
    exception. *)
Theorem X11_install_too_small (table : list (option fn)) :
  length table ≤ 226 →
  install table = Raise UpdateError.
Proof.
  intros Hlen. unfold install.
  repeat (rewrite setitem_small by lia;
          case_decide; cbn [and_then]; [| done];
          rewrite ?length_insert in *).
  exfalso. lia.
Qed.

Lemma X11_witness :
  install (replicate 100 (Some ignore_fn)) = Raise UpdateError.
Proof.
  apply (X11_install_too_small (replicate 100 (Some ignore_fn))).
  vm_compute. lia.
Defined.

(** X12.  The dispatcher keeps the low 32 bits of [ctx->args[1]] only:
    two events whose second argument agrees on those bits are handled
    alike, on any table. *)
Theorem X12_opcode_low_bits
    (syscall : list (option fn)) (ctx ctx' : bpf_raw_tracepoint_args) :
  to_u32 (args ctx 1) = to_u32 (args ctx' 1) →
  hello syscall ctx = hello syscall ctx'.
Proof.
  intros Hlow.
  assert (to_s32 (args ctx 1) = to_s32 (args ctx' 1)) as Hop.
  { rewrite <- (to_s32_to_u32 (args ctx 1)), Hlow. apply to_s32_to_u32. }
  unfold hello. rewrite Hop.
  destruct (bpf_tail_call syscall 0 (to_u32 (to_s32 (args ctx' 1))))
    as [reads [f |]]; [| done].
  destruct f; unfold run, ignore_opcode, hello_exec, hello_timer;
    by rewrite ?Hop.
Qed.

Lemma X12_witness :
  hello prog_array_new (sys_enter (2 ^ 32 + 59))
  = hello prog_array_new (sys_enter 59).
Proof.
  apply (X12_opcode_low_bits prog_array_new
           (sys_enter (2 ^ 32 + 59)) (sys_enter 59)).
  reflexivity.
Defined.

(** X13.  On any table and any event the dispatcher and the handler it
    reaches return 0 and write at most one trace line; they write none
    exactly when the event was handed to [ignore_opcode]. *)
Theorem X13_one_line_per_event
    (syscall : list (option fn)) (ctx : bpf_raw_tracepoint_args) :
  ret (hello syscall ctx) = 0%Z
  ∧ length (trace (hello syscall ctx)) ≤ 1
  ∧ (trace (hello syscall ctx) = []
     ↔ jumped_to (hello syscall ctx) = Some ignore_fn).
Proof.
  unfold hello.
  destruct (bpf_tail_call syscall 0 (to_u32 (to_s32 (args ctx 1))))
    as [reads [f |]].
  - destruct f; unfold run, ignore_opcode, hello_exec, hello_timer,
      bpf_trace_printk; cbn [ret trace jumped_to length];
      repeat case_decide; cbn [length];
      (split; [done |]); (split; [lia |]); split; done.
  - cbn [ret trace jumped_to bpf_trace_printk length].
    split; [done |]. split; [lia |]. split; done.
Qed.

End ProgArray.

(** ** Counting events *)

Section Counting.
Import HelloMap CounterLoop.

Lemma fire_snoc max_entries (table : gmap Z Z) ts t :
  fire max_entries table (ts ++ [t])
  = (count_up max_entries (fire max_entries table ts) t).1.
Proof. unfold fire. by rewrite foldl_app. Qed.

(** The number of events of UID [u] among [ts]. *)
Lemma count_snoc (u : Z) ts t :
  length (filter (λ t', euid t' = u) (ts ++ [t]))
  = length (filter (λ t', euid t' = u) ts)
    + (if decide (euid t = u) then 1 else 0).
Proof.
  rewrite filter_app, length_app. f_equal.
  rewrite filter_cons, filter_nil. by case_decide.
Qed.

Lemma fire_invariant max_entries ts :
  length ts ≤ max_entries →
  size (fire max_entries ∅ ts) ≤ length ts
  ∧ ∀ u, fire max_entries ∅ ts !! u =
      if decide (length (filter (λ t, euid t = u) ts) = 0) then None
      else Some (to_u64 (Z.of_nat (length (filter (λ t, euid t = u) ts)))).
Proof.
  induction ts as [| t ts IH] using rev_ind; intros Hlen.
  { split; [done |]. intros u. unfold fire. cbn [foldl].
    by rewrite lookup_empty. }
  rewrite length_app in Hlen. cbn [length] in Hlen.
  destruct (IH ltac:(lia)) as [Hsize Hcount].
  rewrite fire_snoc. set (table := fire max_entries ∅ ts) in *.
  rewrite length_app. cbn [length].
  pose proof (Hcount (euid t)) as He.
  destruct (table !! euid t) as [v |] eqn:Hv.
  - rewrite (count_up_present _ _ _ _ Hv). cbn [fst]. split.
    + rewrite map_size_insert_Some by eauto. lia.
    + intros u. rewrite count_snoc.
      destruct (decide (euid t = u)) as [<- | Hne].
      * rewrite lookup_insert_eq.
        case_decide as Hz; [done |]. injection He as ->.
        rewrite decide_False by lia. f_equal.
        unfold to_u64. rewrite Zplus_mod_idemp_l. f_equal. lia.
      * rewrite lookup_insert_ne by done. rewrite Hcount.
        rewrite Nat.add_0_r. done.
  - rewrite (count_up_new _ _ _ Hv) by lia. cbn [fst]. split.
    + rewrite map_size_insert_Some by (rewrite lookup_insert_eq; eauto).
      rewrite map_size_insert_None by done. lia.
    + intros u. rewrite count_snoc.
      destruct (decide (euid t = u)) as [<- | Hne].
      * rewrite lookup_insert_eq.
        case_decide as Hz; [| done]. rewrite Hz.
        rewrite decide_False by lia. done.
      * rewrite !lookup_insert_ne by done. rewrite Hcount.
        rewrite Nat.add_0_r. done.
Qed.

(** X14.  Starting from an empty table that has room for as many entries
    as there are events, after the probe has fired for each event the
    table holds, for every UID, the number of events of that UID (in
    64-bit arithmetic), and no entry for a UID without events. *)
Theorem X14_fire_counts (max_entries : nat) (ts : list task) (u : Z) :
  length ts ≤ max_entries →
  fire max_entries ∅ ts !! u =
    if decide (length (filter (λ t, euid t = u) ts) = 0) then None
    else Some (to_u64 (Z.of_nat (length (filter (λ t, euid t = u) ts)))).
Proof. intros Hlen. by apply fire_invariant. Qed.

Lemma X14_witness :
  fire BPF_HASH_entries ∅
    [sample_task 1000 []; sample_task 0 []; sample_task 1000 []]
    !! 1000%Z = Some 2%Z.
Proof.
  assert (length [sample_task 1000 []; sample_task 0 [];
                  sample_task 1000 []] ≤ BPF_HASH_entries) as Hlen
    by (unfold BPF_HASH_entries; cbn [length]; lia).
  pose proof (X14_fire_counts BPF_HASH_entries
                [sample_task 1000 []; sample_task 0 []; sample_task 1000 []]
                1000%Z Hlen) as H.
  vm_compute in H. vm_compute. exact H.
Defined.

(** X15.  However many events fire, on whatever table, a table within
    its capacity stays within its capacity and no UID that has an entry
    loses it. *)
Theorem X15_fire_bounded
    (max_entries : nat) (ts : list task) (counter_table : gmap Z Z) :
  size counter_table ≤ max_entries →
  size (fire max_entries counter_table ts) ≤ max_entries
  ∧ dom counter_table ⊆ dom (fire max_entries counter_table ts).
Proof.
  revert counter_table.
  induction ts as [| t ts IH]; intros table Hsize; [done |].
  unfold fire. cbn [foldl]. fold (fire max_entries).
  assert (size (count_up max_entries table t).1 ≤ max_entries
          ∧ dom table ⊆ dom (count_up max_entries table t).1)
    as [Hsize' Hdom'].
  { destruct (table !! euid t) as [v |] eqn:Hv.
    - rewrite (count_up_present _ _ _ _ Hv). cbn [fst]. split.
      + rewrite map_size_insert_Some by eauto. done.
      + apply dom_insert_subseteq.
    - destruct (decide (size table < max_entries)) as [Hroom | Hfull].
      + rewrite (count_up_new _ _ _ Hv Hroom). cbn [fst]. split.
        * rewrite map_size_insert_Some by (rewrite lookup_insert_eq; eauto).
          rewrite map_size_insert_None by done. lia.
        * etrans; apply dom_insert_subseteq.
      + rewrite (count_up_full _ _ _ Hv Hfull). done. }
  destruct (IH _ Hsize') as [Hs Hd]. split; [done |]. by etrans.
Qed.

Lemma X15_witness :
  size (fire 1 {[ 0%Z := 5%Z ]} [sample_task 1000 []; sample_task 0 []]) ≤ 1
  ∧ dom ({[ 0%Z := 5%Z ]} : gmap Z Z)
    ⊆ dom (fire 1 {[ 0%Z := 5%Z ]} [sample_task 1000 []; sample_task 0 []]).
Proof.
  apply (X15_fire_bounded 1 [sample_task 1000 []; sample_task 0 []]
           {[ 0%Z := 5%Z ]}).
  vm_compute. lia.
Defined.

Lemma foldl_dump_prefix (items : list (Z * Z)) (acc : py_str) :
  ∃ rest,
    foldl (λ s kv, s ++ text "ID " ++ str_of_int kv.1 ++ text ": "
                     ++ str_of_int kv.2 ++ [9%N]) acc items
    = acc ++ rest.
Proof.
  revert acc. induction items as [| kv items IH]; intros acc.
  - exists []. by rewrite app_nil_r.
  - cbn [foldl]. destruct (IH (acc ++ text "ID " ++ str_of_int kv.1
                                 ++ text ": " ++ str_of_int kv.2 ++ [9%N]))
      as [rest Hrest].
    eexists. rewrite Hrest, <- app_assoc. done.
Qed.

(** X16.  The dump shows "(no entries yet)" exactly when the table has
    no entry; a table with entries is shown as text that starts with
    "ID ". *)
Theorem X16_dump_empty (items : list (Z * Z)) :
  (dump items = text "(no entries yet)" ++ [10%N] ↔ items = [])
  ∧ (items = [] ∨ text "ID " `prefix_of` dump items).
Proof.
  destruct items as [| kv items].
  { split; [done | by left]. }
  unfold dump. cbn [foldl].
  destruct (foldl_dump_prefix items
              ([] ++ text "ID " ++ str_of_int kv.1 ++ text ": "
               ++ str_of_int kv.2 ++ [9%N])) as [rest ->].
  cbn [app]. change (text "ID ") with [73%N; 68%N; 32%N]. cbn [app].
  rewrite decide_False by done. split.
  - split; [| done]. change (text "(no entries yet)") with
      ([40%N] ++ text "no entries yet)"). cbn [app]. intros [=].
  - right. by eexists.
Qed.

End Counting.
